(** * Unix crash log handler (src/os/unix/crashlog_unix.cpp)

    A shallow embedding of OpenTTD's Unix crash logger: the three report
    sections written by [CrashLogUnix] into a bounded character buffer, the
    signal handler [HandleCrash] and the installer
    [CrashLog::InitialiseCrashLog], followed by the properties of the design
    document that concern them.

    Pointers into the report buffer are integers ([Z]); the characters stored
    so far are kept as a [string].  Signal dispositions, the console and the
    calls to collaborators are kept in an explicit [World]. *)

From Stdlib Require Import ZArith String Ascii List Lia Bool.
From Stdlib Require DecimalString HexadecimalString.
From stdpp Require Import gmap strings.

Local Open Scope string_scope.
Local Open Scope Z_scope.

(* Let [simpl] compute the concatenation of strings on constructors. *)
#[local] Arguments String.append !s1 s2 : simpl nomatch.

(* ===================================================================== *)
(** * Text *)
(* ===================================================================== *)

Module Text.

(** The line feed character, written [\n] in the C++ format strings. *)
Definition LF : ascii := ascii_of_nat 10.
Definition nl : string := String LF EmptyString.

(** The first [n] characters of [s] (all of [s] when it is shorter). *)
Fixpoint truncate (n : nat) (s : string) : string :=
  match n, s with
  | O, _ => EmptyString
  | _, EmptyString => EmptyString
  | S n', String c s' => String c (truncate n' s')
  end.

(** Several lines, each one terminated by a line feed. *)
Fixpoint unlines (ls : list string) : string :=
  match ls with
  | [] => EmptyString
  | l :: ls' => l +:+ nl +:+ unlines ls'
  end.

(** A report field: one space of indentation before the text. *)
Definition indent (s : string) : string := " " +:+ s.

(** [%d]: signed decimal. *)
Definition fmt_d (z : Z) : string :=
  DecimalString.NilZero.string_of_int (Z.to_int z).

(** [%02i]: signed decimal, padded with a zero to two characters. *)
Definition fmt_02i (z : Z) : string :=
  let s := fmt_d z in
  if (String.length s <? 2)%nat then "0" +:+ s else s.

(** [%x] applied to a 32-bit [int]/[uint] argument: the value taken modulo
    [2^32], in lower-case hexadecimal without leading zeros. *)
Definition fmt_x (z : Z) : string :=
  HexadecimalString.NilZero.string_of_uint (N.to_hex_uint (Z.to_N (z mod 2 ^ 32))).

(** [s] has no line feed in it. *)
Fixpoint no_newline (s : string) : bool :=
  match s with
  | EmptyString => true
  | String c s' => negb (Ascii.eqb c LF) && no_newline s'
  end.

(** Number of numbered frame lines in a report: the lines that begin with
    [" ["], the opening of the [" [%02i] ..."] formats, counted as the places
    where a line feed is followed by these two characters. *)
Fixpoint count_frame_lines (s : string) : nat :=
  match s with
  | EmptyString => O
  | String c s' =>
      ((if Ascii.eqb c LF && String.prefix " [" s' then 1 else 0)
       + count_frame_lines s')%nat
  end.

(** [needle] occurs in [hay]. *)
Definition contains (needle hay : string) : Prop :=
  exists pre post, hay = pre +:+ needle +:+ post.

(** Executable test for an occurrence of [needle] in [hay]. *)
Fixpoint occurs (needle hay : string) : bool :=
  String.prefix needle hay ||
  match hay with
  | EmptyString => false
  | String _ hay' => occurs needle hay'
  end.

(** [s] ends with [suffix]. *)
Definition ends_with (suffix s : string) : bool :=
  let n := String.length s in
  let k := String.length suffix in
  (k <=? n)%nat && String.eqb (String.substring (n - k) k s) suffix.

End Text.
Import Text.

(* ===================================================================== *)
(** * The bounded report buffer *)
(* ===================================================================== *)

(** Code that writes into the report buffer: it is given the characters
    stored so far and returns its result with the characters stored after
    it.  Every write of this file starts where the previous one ended, so the
    stored characters form one text. *)
Definition Buf (A : Type) : Type := string -> A * string.

Definition ret {A} (a : A) : Buf A := fun m => (a, m).
Definition bind {A B} (c : Buf A) (k : A -> Buf B) : Buf B :=
  fun m => let '(a, m') := c m in k a m'.

Declare Scope buf_scope.
Delimit Scope buf_scope with buf.
Notation "x <- c ;; k" := (bind c (fun x => k))
  (at level 100, c at next level, right associativity) : buf_scope.

(** Number of characters that may still be stored when the cursor is at
    [buffer] and the end of the buffer at [last]. *)
Definition room (buffer last : Z) : nat := Z.to_nat (last - buffer).

(** Modelled from the spec: [seprintf] (string_func.h) is not part of this
    file's source.  It is the bounded formatter: it appends the formatted
    text at [buffer], never writes past [last], cuts the text when it does not
    fit, and returns the number of characters stored.  The argument [s] is the
    text that the format string and its arguments produce. *)
Definition seprintf (buffer last : Z) (s : string) : Buf Z :=
  fun m =>
    let diff := last - buffer in
    if diff <? 0 then (0, m)
    else
      let n := Z.min diff (Z.of_nat (String.length s)) in
      (n, m +:+ truncate (Z.to_nat n) s).

(* ===================================================================== *)
(** * The operating system, as the crash logger queries it *)
(* ===================================================================== *)

(** [struct utsname] of <sys/utsname.h>, the fields the logger prints. *)
Record utsname : Type := {
  sysname : string;
  release : string;
  version : string;
  machine : string
}.

(** [Dl_info] of <dlfcn.h>, the fields the stack walker prints.  The two
    names are pointers to C strings, [None] being the null pointer: when
    [dladdr()] finds the module of an address but no symbol for it, it
    returns a non-zero value with [dli_sname] and [dli_saddr] null. *)
Record Dl_info : Type := {
  dli_fname : option string;  (**r path of the module holding the address *)
  dli_sname : option string;  (**r nearest symbol at or before the address *)
  dli_saddr : Z               (**r address of that symbol, 0 when null *)
}.

(** What the system calls and C library functions used by the logger answer
    at the moment of the crash.  They belong to the platform, not to
    OpenTTD, and are left arbitrary. *)
Record OS : Type := {
  uname : option utsname;     (**r [None]: [uname()] returned a negative value *)
  errno : Z;                  (**r [errno] after the failed [uname()] *)
  strerror : Z -> string;
  strsignal : Z -> string;    (**r total: some text for every number *)
  callstack : list Z;         (**r return addresses of the active frames, innermost first *)
  symbol_of : Z -> string;    (**r the description [backtrace_symbols] gives of an address *)
  getcontext_ok : bool;       (**r whether [getcontext()] returns 0 *)
  stale_context : list Z;     (**r what the local [uc] holds when [getcontext()] did not fill it *)
  dladdr : Z -> option Dl_info; (**r [None]: [dladdr()] returned 0 *)
  null_text : string          (**r what [%s] makes of a null pointer, where the C library prints it *)
}.

(** [%s] applied to a pointer to a C string.  For the null pointer the C
    standard leaves the behaviour undefined: the text is the one the C
    library of the platform prints (["(null)"] with glibc); a library that
    reads through the pointer faults instead, which this text does not
    show. *)
Definition fmt_s (os : OS) (p : option string) : string :=
  match p with
  | Some s => s
  | None => null_text os
  end.

(** [backtrace(trace, size)]: stores up to [size] return addresses of the
    current call stack and returns how many it stored. *)
Definition backtrace (os : OS) (size : nat) : list Z :=
  firstn size (callstack os).

(** [backtrace_symbols(trace, trace_size)]: one description per address. *)
Definition backtrace_symbols (os : OS) (trace : list Z) (trace_size : nat)
  : list string :=
  map (symbol_of os) (firstn trace_size trace).

(** [ucontext_t], reduced to what [walkcontext] visits: the program counters
    of the frames of the captured context, innermost first. *)
Definition ucontext_t : Type := list Z.

(** [getcontext(&uc)]: 0 and the current context stored in [uc], or a
    non-zero value, [uc] keeping whatever it held. *)
Definition getcontext (os : OS) : Z * ucontext_t :=
  if getcontext_ok os then (0, callstack os) else (-1, stale_context os).

(** The build configurations that [LogStacktrace] distinguishes with
    [#if defined(__GLIBC__) ... #elif defined(SUNOS) ... #else]. *)
Inductive Platform : Type := GLIBC | SUNOS | OTHER.

(* ===================================================================== *)
(** * class CrashLogUnix *)
(* ===================================================================== *)

(** Unix implementation for the crash logger. *)
Record CrashLogUnix : Type := {
  signum : Z  (**r Signal that has been thrown. *)
}.

Local Open Scope buf_scope.

Definition LogOSVersion (os : OS) (buffer last : Z) : Buf Z :=
  match uname os with
  | None =>
      n <- seprintf buffer last
             ("Could not get OS version: " +:+ strerror os (errno os) +:+ nl) ;;
      ret (buffer + n)
  | Some name =>
      n <- seprintf buffer last
             ("Operating system:" +:+ nl +:+
              " Name:     " +:+ sysname name +:+ nl +:+
              " Release:  " +:+ release name +:+ nl +:+
              " Version:  " +:+ version name +:+ nl +:+
              " Machine:  " +:+ machine name +:+ nl) ;;
      ret (buffer + n)
  end.

Definition LogError (this : CrashLogUnix) (os : OS) (buffer last : Z)
    (message : string) : Buf Z :=
  n <- seprintf buffer last
         ("Crash reason:" +:+ nl +:+
          " Signal:  " +:+ strsignal os (signum this) +:+
            " (" +:+ fmt_d (signum this) +:+ ")" +:+ nl +:+
          " Message: " +:+ message +:+ nl +:+ nl) ;;
  ret (buffer + n).

(** Data needed while walking up the stack.  [bufptr] points to the local
    variable [buffer] of [LogStacktrace]; the field holds the value of that
    variable, which the walker and [LogStacktrace] share. *)
Record StackWalkerParams : Type := {
  bufptr : Z;   (**r Buffer *)
  wp_last : Z;  (**r End of buffer *)
  counter : Z   (**r We are at counter-th stack level *)
}.

(** Callback used while walking up the stack: always 0, continue walking up
    the stack.  The offset and the address are printed through [(int)] and
    [(uint)] casts with [%x]. *)
Definition SunOSStackWalker (os : OS) (pc : Z) (sig : Z)
    (wp : StackWalkerParams) : Buf (Z * StackWalkerParams) :=
  n <- match dladdr os pc with
       | Some dli =>
           seprintf (bufptr wp) (wp_last wp)
             (" [" +:+ fmt_02i (counter wp) +:+ "] " +:+ fmt_s os (dli_fname dli) +:+
              "(" +:+ fmt_s os (dli_sname dli) +:+ "+0x" +:+ fmt_x (pc - dli_saddr dli) +:+
              ") [0x" +:+ fmt_x pc +:+ "]" +:+ nl)
       | None =>
           seprintf (bufptr wp) (wp_last wp)
             (" [" +:+ fmt_02i (counter wp) +:+ "] [0x" +:+ fmt_x pc +:+ "]" +:+ nl)
       end ;;
  ret (0, {| bufptr := bufptr wp + n;
             wp_last := wp_last wp;
             counter := counter wp + 1 |}).

(** [walkcontext(&uc, func, arg)] of <ucontext.h>: calls [func] on the
    program counter of every frame of the context, from the innermost one,
    until the frames end or [func] returns a non-zero value. *)
Fixpoint walkcontext (uc : ucontext_t)
    (func : Z -> Z -> StackWalkerParams -> Buf (Z * StackWalkerParams))
    (wp : StackWalkerParams) : Buf StackWalkerParams :=
  match uc with
  | [] => ret wp
  | pc :: uc' =>
      r <- func pc 0 wp ;;
      if fst r =? 0 then walkcontext uc' func (snd r) else ret (snd r)
  end.

(** [lengthof(trace)] for [void *trace[64]]. *)
Definition lengthof_trace : nat := 64.

(** The loop [for (int i = 0; i < trace_size; i++)] of the glibc variant,
    with [remaining = trace_size - i] iterations still to run. *)
Fixpoint LogStacktrace_for (remaining : nat) (i : Z) (messages : list string)
    (buffer last : Z) : Buf Z :=
  match remaining with
  | O => ret buffer
  | S remaining' =>
      n <- seprintf buffer last
             (" [" +:+ fmt_02i i +:+ "] " +:+
              nth (Z.to_nat i) messages EmptyString +:+ nl) ;;
      LogStacktrace_for remaining' (i + 1) messages (buffer + n) last
  end.

Definition LogStacktrace (p : Platform) (os : OS) (buffer last : Z) : Buf Z :=
  n <- seprintf buffer last ("Stacktrace:" +:+ nl) ;;
  let buffer := buffer + n in
  match p with
  | GLIBC =>
      let trace := backtrace os lengthof_trace in
      let trace_size := length trace in
      let messages := backtrace_symbols os trace trace_size in
      buffer <- LogStacktrace_for trace_size 0 messages buffer last ;;
      n <- seprintf buffer last nl ;;
      ret (buffer + n)
  | SUNOS =>
      let '(rc, uc) := getcontext os in
      if negb (rc =? 0) then
        n <- seprintf buffer last (" getcontext() failed" +:+ nl +:+ nl) ;;
        ret (buffer + n)
      else
        let wp := {| bufptr := buffer; wp_last := last; counter := 0 |} in
        wp <- walkcontext uc (SunOSStackWalker os) wp ;;
        let buffer := bufptr wp in
        n <- seprintf buffer last nl ;;
        ret (buffer + n)
  | OTHER =>
      n <- seprintf buffer last (" Not supported." +:+ nl) ;;
      let buffer := buffer + n in
      n <- seprintf buffer last nl ;;
      ret (buffer + n)
  end.

(** Modelled from the spec: [CrashLog::FillCrashLog] (crashlog.cpp) is not
    part of this file's source.  The full capture invokes the three
    report-producing operations in the fixed order OS version, fault reason,
    stack trace, each one appending at the cursor the previous one
    returned. *)
Definition FillCrashLog (p : Platform) (this : CrashLogUnix) (os : OS)
    (message : string) (buffer last : Z) : Buf Z :=
  buffer <- LogOSVersion os buffer last ;;
  buffer <- LogError this os buffer last message ;;
  LogStacktrace p os buffer last.

Local Close Scope buf_scope.

(* ===================================================================== *)
(** * The process: signal dispositions, collaborators, termination *)
(* ===================================================================== *)

(** <signal.h> numbers of the handled signals (the values of Linux; no proof
    below depends on the numbers). *)
Definition SIGILL : Z := 4.
Definition SIGABRT : Z := 6.
Definition SIGBUS : Z := 7.
Definition SIGFPE : Z := 8.
Definition SIGSEGV : Z := 11.

(** What a signal may be bound to: the default action, nothing, the crash
    handler of this file, or some other function. *)
Inductive sighandler : Type :=
  | SIG_DFL
  | SIG_IGN
  | SIG_HandleCrash
  | SIG_other (address : Z).

(** The calls that leave this file, in the order they are made. *)
Inductive Event : Type :=
  | signal_call (sig : Z) (handler : sighandler)
  | GamelogTestEmergency_call
  | SaveloadCrashWithMissingNewGRFs_call
  | printf_call (text : string)
  | CrashLogUnix_constructed (signum : Z)
  | LogOSVersion_call
  | LogError_call
  | LogStacktrace_call
  | crashlog_finalized (report : string)
  | AfterCrashLogCleanup_call
  | abort_call.

Record World : Type := {
  dispositions : gmap Z sighandler;  (**r signals bound by [signal()]; the others are at [SIG_DFL] *)
  emergency_savegame : bool;         (**r the answer of [GamelogTestEmergency()] *)
  missing_newgrfs : bool;            (**r the answer of [SaveloadCrashWithMissingNewGRFs()] *)
  system : OS;
  crash_message : string;            (**r [CrashLog::message] *)
  crashlog_capacity : Z;             (**r size of the report buffer *)
  presentation : string -> list string; (**r what the report finalization prints for a report *)
  history : list Event
}.

(** The handler a signal is bound to. *)
Definition disposition (w : World) (sig : Z) : sighandler :=
  default SIG_DFL (dispositions w !! sig).

(** What the delivery of a signal does. *)
Inductive Delivery : Type :=
  | default_action
  | ignored
  | runs_HandleCrash
  | runs_other (address : Z).

Definition deliver (w : World) (sig : Z) : Delivery :=
  match disposition w sig with
  | SIG_DFL => default_action
  | SIG_IGN => ignored
  | SIG_HandleCrash => runs_HandleCrash
  | SIG_other a => runs_other a
  end.

Definition record_call (e : Event) (w : World) : World :=
  {| dispositions := dispositions w;
     emergency_savegame := emergency_savegame w;
     missing_newgrfs := missing_newgrfs w;
     system := system w;
     crash_message := crash_message w;
     crashlog_capacity := crashlog_capacity w;
     presentation := presentation w;
     history := history w ++ [e] |}.

Definition bind_signal (sig : Z) (handler : sighandler) (w : World) : World :=
  {| dispositions := <[sig := handler]> (dispositions w);
     emergency_savegame := emergency_savegame w;
     missing_newgrfs := missing_newgrfs w;
     system := system w;
     crash_message := crash_message w;
     crashlog_capacity := crashlog_capacity w;
     presentation := presentation w;
     history := history w |}.

(** A piece of code either returns to its caller or ends the process. *)
Inductive Outcome (A : Type) : Type :=
  | Returns (a : A) (w : World)
  | Terminated (w : World).
Arguments Returns {A} a w.
Arguments Terminated {A} w.

Definition Proc (A : Type) : Type := World -> Outcome A.

Definition pret {A} (a : A) : Proc A := fun w => Returns a w.
Definition pbind {A B} (c : Proc A) (k : A -> Proc B) : Proc B :=
  fun w =>
    match c w with
    | Returns a w' => k a w'
    | Terminated w' => Terminated w'
    end.

Declare Scope proc_scope.
Delimit Scope proc_scope with proc.
Notation "x <- c ;; k" := (pbind c (fun x => k))
  (at level 100, c at next level, right associativity) : proc_scope.
Notation "c ;;; k" := (pbind c (fun _ => k))
  (at level 100, right associativity) : proc_scope.

(** The world in which a piece of code leaves the process. *)
Definition final_world {A} (o : Outcome A) : World :=
  match o with
  | Returns _ w => w
  | Terminated w => w
  end.

Local Open Scope proc_scope.

(** [signal(sig, handler)] of <signal.h>. *)
Definition signal (sig : Z) (handler : sighandler) : Proc unit :=
  fun w => Returns tt (bind_signal sig handler (record_call (signal_call sig handler) w)).

Definition printf (text : string) : Proc unit :=
  fun w => Returns tt (record_call (printf_call text) w).

(** [abort()] of <stdlib.h>: ends the process abnormally; does not return. *)
Definition abort {A} : Proc A :=
  fun w => Terminated (record_call abort_call w).

(** gamelog.h: whether an emergency savegame was loaded. *)
Definition GamelogTestEmergency : Proc bool :=
  fun w => Returns (emergency_savegame w) (record_call GamelogTestEmergency_call w).

(** saveload.h: whether the loaded savegame lacks some of its NewGRFs. *)
Definition SaveloadCrashWithMissingNewGRFs : Proc bool :=
  fun w => Returns (missing_newgrfs w)
             (record_call SaveloadCrashWithMissingNewGRFs_call w).

(** The constructor [CrashLogUnix(int signum)]. *)
Definition CrashLogUnix_new (signum : Z) : Proc CrashLogUnix :=
  fun w => Returns {| signum := signum |}
             (record_call (CrashLogUnix_constructed signum) w).

(** Several calls, recorded in order. *)
Definition record_calls (es : list Event) (w : World) : World :=
  fold_left (fun w e => record_call e w) es w.

(** Modelled from the spec: [CrashLog::MakeCrashLog] (crashlog.cpp) is not
    part of this file's source.  It drives the collector: the three
    report-producing operations run in the fixed order into a buffer of the
    configured capacity, and the completed buffer is handed to the report
    finalization, which stores it and prints to the console (where the
    report went, and whatever else it presents: [presentation]). *)
Definition MakeCrashLog (p : Platform) (log : CrashLogUnix) : Proc unit :=
  fun w =>
    let report :=
      snd (FillCrashLog p log (system w) (crash_message w)
             0 (crashlog_capacity w) EmptyString) in
    Returns tt
      (record_calls
         ([LogOSVersion_call; LogError_call; LogStacktrace_call;
           crashlog_finalized report] ++
          map printf_call (presentation w report))
         w).

(** Modelled from the spec: [CrashLog::AfterCrashLogCleanup] (crashlog.cpp)
    is not part of this file's source; it is the last external call before
    termination. *)
Definition AfterCrashLogCleanup : Proc unit :=
  fun w => Returns tt (record_call AfterCrashLogCleanup_call w).

(** The signals we want our crash handler to handle. *)
Definition _signals_to_handle : list Z :=
  [SIGSEGV; SIGABRT; SIGFPE; SIGBUS; SIGILL].

(** The loop over an array of signal numbers, from its first element to
    [endof(array)], running [body] on each element. *)
Fixpoint for_each (array : list Z) (body : Z -> Proc unit) : Proc unit :=
  match array with
  | [] => pret tt
  | i :: rest => body i ;;; for_each rest body
  end.

(** The first statement of [HandleCrash]: disable all handling of signals by
    us, so we don't go into infinite loops. *)
Definition HandleCrash_disarm : Proc unit :=
  for_each _signals_to_handle (fun i => signal i SIG_DFL).

(** The statements of [HandleCrash] after the disarming loop. *)
Definition HandleCrash_report (p : Platform) (signum : Z) : Proc unit :=
  emergency <- GamelogTestEmergency ;;
  (if emergency then
     printf ("A serious fault condition occurred in the game. The game will shut down." +:+ nl) ;;;
     printf ("As you loaded an emergency savegame no crash information will be generated." +:+ nl) ;;;
     abort
   else pret tt) ;;;
  missing <- SaveloadCrashWithMissingNewGRFs ;;
  (if missing then
     printf ("A serious fault condition occurred in the game. The game will shut down." +:+ nl) ;;;
     printf ("As you loaded an savegame for which you do not have the required NewGRFs" +:+ nl) ;;;
     printf ("no crash information will be generated." +:+ nl) ;;;
     abort
   else pret tt) ;;;
  log <- CrashLogUnix_new signum ;;
  MakeCrashLog p log ;;;
  AfterCrashLogCleanup ;;;
  abort.

(** Entry point for the crash handler. *)
Definition HandleCrash (p : Platform) (signum : Z) : Proc unit :=
  HandleCrash_disarm ;;;
  HandleCrash_report p signum.

Definition InitialiseCrashLog : Proc unit :=
  for_each _signals_to_handle (fun i => signal i SIG_HandleCrash).

Definition InitThread : Proc unit := pret tt.

Local Close Scope proc_scope.

(* ===================================================================== *)
(** * Vocabulary of the properties *)
(* ===================================================================== *)

(** The result of storing the text [s] at the cursor [buffer] of a buffer
    that ends at [last] and holds [m]: the text is cut to the room left, the
    cursor advances by the number of characters stored. *)
Definition stored (buffer last : Z) (m s : string) : Z * string :=
  (buffer + Z.of_nat (Nat.min (room buffer last) (String.length s)),
   m +:+ truncate (room buffer last) s).

(** The operation [op] appends the text [s] to the report, whatever the
    cursor, the end of the buffer and the text already stored. *)
Definition writes (op : Z -> Z -> Buf Z) (s : string) : Prop :=
  forall buffer last m, op buffer last m = stored buffer last m s.

(** The [i]-th element of a list goes with the number [start + i]. *)
Fixpoint numbered {A} (start : Z) (l : list A) : list (Z * A) :=
  match l with
  | [] => []
  | x :: l' => (start, x) :: numbered (start + 1) l'
  end.

(** The line of the glibc variant for frame number [i] described by [msg],
    without its line feed. *)
Definition glibc_frame_line (f : Z * string) : string :=
  " [" +:+ fmt_02i (fst f) +:+ "] " +:+ snd f.

(** The line of the context-walking variant for frame number [i] at program
    counter [pc], without its line feed. *)
Definition sunos_frame_line (os : OS) (f : Z * Z) : string :=
  let '(i, pc) := f in
  match dladdr os pc with
  | Some dli =>
      " [" +:+ fmt_02i i +:+ "] " +:+ fmt_s os (dli_fname dli) +:+
      "(" +:+ fmt_s os (dli_sname dli) +:+ "+0x" +:+ fmt_x (pc - dli_saddr dli) +:+
      ") [0x" +:+ fmt_x pc +:+ "]"
  | None => " [" +:+ fmt_02i i +:+ "] [0x" +:+ fmt_x pc +:+ "]"
  end.

(** The line of the context-walking variant for a frame that [dladdr()]
    could not place at all: its number and its raw address. *)
Definition raw_address_line (i pc : Z) : string :=
  " [" +:+ fmt_02i i +:+ "] [0x" +:+ fmt_x pc +:+ "]".

(** The lines of a stack-trace section between its header and its closing
    blank line, in each build configuration. *)
Definition stack_trace_lines (p : Platform) (os : OS) : list string :=
  match p with
  | GLIBC =>
      map glibc_frame_line
        (numbered 0 (map (symbol_of os) (firstn 64 (callstack os))))
  | SUNOS =>
      if getcontext_ok os
      then map (sunos_frame_line os) (numbered 0 (callstack os))
      else [" getcontext() failed"]
  | OTHER => [" Not supported."]
  end.

(** The texts that the system and the caller supply to the report hold no
    line feed: each one stays on the line it is printed on. *)
Definition single_line_texts (this : CrashLogUnix) (os : OS) (message : string)
  : Prop :=
  (match uname os with
   | Some name =>
       no_newline (sysname name) = true /\ no_newline (release name) = true /\
       no_newline (version name) = true /\ no_newline (machine name) = true
   | None => no_newline (strerror os (errno os)) = true
   end) /\
  no_newline (strsignal os (signum this)) = true /\
  no_newline message = true /\
  (forall a, no_newline (symbol_of os a) = true) /\
  (forall pc dli, dladdr os pc = Some dli ->
     no_newline (fmt_s os (dli_fname dli)) = true /\
     no_newline (fmt_s os (dli_sname dli)) = true).

(** The events of a history that are operations of the collector. *)
Definition is_collector_call (e : Event) : bool :=
  match e with
  | CrashLogUnix_constructed _
  | LogOSVersion_call | LogError_call | LogStacktrace_call
  | crashlog_finalized _ => true
  | _ => false
  end.

Definition collector_calls (h : list Event) : list Event :=
  filter (fun e => is_collector_call e) h.

Definition is_signal_call (e : Event) : bool :=
  match e with
  | signal_call _ _ => true
  | _ => false
  end.

(** The calls [signal(i, handler)] for the signals of [array], in order. *)
Definition signal_calls (array : list Z) (handler : sighandler) : list Event :=
  map (fun i => signal_call i handler) array.

(** The world after [signal(i, handler)] was called for every signal of
    [array], in order. *)
Definition rebound (array : list Z) (handler : sighandler) (w : World) : World :=
  fold_left
    (fun w i => bind_signal i handler (record_call (signal_call i handler) w))
    array w.

(** The calls of [HandleCrash] after the emergency check and before its
    [abort()], on each of its three paths. *)
Definition calls_after_emergency_check (p : Platform) (signum : Z) (w : World)
  : list Event :=
  if emergency_savegame w then
    [printf_call ("A serious fault condition occurred in the game. The game will shut down." +:+ nl);
     printf_call ("As you loaded an emergency savegame no crash information will be generated." +:+ nl)]
  else if missing_newgrfs w then
    [SaveloadCrashWithMissingNewGRFs_call;
     printf_call ("A serious fault condition occurred in the game. The game will shut down." +:+ nl);
     printf_call ("As you loaded an savegame for which you do not have the required NewGRFs" +:+ nl);
     printf_call ("no crash information will be generated." +:+ nl)]
  else
    [SaveloadCrashWithMissingNewGRFs_call;
     CrashLogUnix_constructed signum;
     LogOSVersion_call; LogError_call; LogStacktrace_call;
     crashlog_finalized
       (snd (FillCrashLog p {| signum := signum |} (system w) (crash_message w)
               0 (crashlog_capacity w) EmptyString))] ++
    map printf_call
      (presentation w
         (snd (FillCrashLog p {| signum := signum |} (system w) (crash_message w)
                 0 (crashlog_capacity w) EmptyString))) ++
    [AfterCrashLogCleanup_call].

(** Whether a blank line stands in the report right before the line
    [header]. *)
Definition blank_line_before (header report : string) : bool :=
  occurs (nl +:+ nl +:+ header) report.

(* ===================================================================== *)
(** * Sample crashes *)
(* ===================================================================== *)

Module Samples.

(** A Linux machine crashing three calls deep. *)
Definition linux : OS := {|
  uname := Some {| sysname := "Linux"; release := "5.4.0";
                   version := "#1 SMP"; machine := "x86_64" |};
  errno := 0;
  strerror := fun _ => "Success";
  strsignal := fun sig => if sig =? SIGSEGV then "Segmentation fault"
                          else "Unknown signal " +:+ fmt_d sig;
  callstack := [4198400; 4198656; 4202496];
  symbol_of := fun a => "./openttd() [0x" +:+ fmt_x a +:+ "]";
  getcontext_ok := true;
  dladdr := fun a =>
    if a =? 4198400
    then Some {| dli_fname := Some "openttd"; dli_sname := Some "main";
                 dli_saddr := 4198144 |}
    else None;
  stale_context := [];
  null_text := "(null)"
|}.

(** The same machine when [uname()] fails with [EFAULT]. *)
Definition linux_without_uname : OS := {|
  uname := None;
  errno := 14;
  strerror := fun _ => "Bad address";
  strsignal := strsignal linux;
  callstack := callstack linux;
  symbol_of := symbol_of linux;
  getcontext_ok := true;
  dladdr := dladdr linux;
  stale_context := [4198400; 4198656];
  null_text := "(null)"
|}.

(** A machine on which [getcontext()] fails. *)
Definition without_context : OS := {|
  uname := uname linux;
  errno := 0;
  strerror := strerror linux;
  strsignal := strsignal linux;
  callstack := callstack linux;
  symbol_of := symbol_of linux;
  getcontext_ok := false;
  dladdr := dladdr linux;
  stale_context := [4198400; 4198656];
  null_text := "(null)"
|}.

(** A crash 65 calls deep, at addresses without symbol information. *)
Definition deep_recursion : OS := {|
  uname := uname linux;
  errno := 0;
  strerror := strerror linux;
  strsignal := strsignal linux;
  callstack := map (fun i => 4096 + 16 * Z.of_nat i) (seq 0 65);
  symbol_of := symbol_of linux;
  getcontext_ok := true;
  dladdr := fun _ => None;
  stale_context := [];
  null_text := "(null)"
|}.

(** A crash [depth] calls deep, at addresses without symbol information. *)
Definition recursion (depth : nat) : OS := {|
  uname := uname linux;
  errno := 0;
  strerror := strerror linux;
  strsignal := strsignal linux;
  callstack := repeat 4096 depth;
  symbol_of := symbol_of linux;
  getcontext_ok := true;
  dladdr := fun _ => None;
  stale_context := [];
  null_text := "(null)"
|}.

(** A process and its game at the moment of the crash. *)
Definition game (emergency missing : bool) (os : OS) : World := {|
  dispositions := ∅;
  emergency_savegame := emergency;
  missing_newgrfs := missing;
  system := os;
  crash_message := EmptyString;
  crashlog_capacity := 65536;
  presentation := fun _ => ["Crash log written to crash.log" +:+ nl];
  history := []
|}.

End Samples.

(* ===================================================================== *)
(** * Vocabulary of the further properties *)
(* ===================================================================== *)

(** The result [r] of an operation that was given the cursor [buffer], the
    end [last] and the stored text [m]: the cursor did not move back, did not
    pass the end of the buffer, and advanced by the number of characters that
    were added after [m]. *)
Definition within_buffer (buffer last : Z) (m : string) (r : Z * string) : Prop :=
  buffer <= fst r /\
  (buffer <= last -> fst r <= last) /\
  exists t, snd r = m +:+ t /\ Z.of_nat (String.length t) = fst r - buffer.

(** The operation [op] stores, in a buffer that ends at [last], the first
    characters of what it stores in a buffer that ends at [last']. *)
Definition cut_of (op : Z -> Z -> Buf Z) (buffer last last' : Z) (m : string)
  : Prop :=
  exists t,
    snd (op buffer last' m) = m +:+ t /\
    snd (op buffer last m) = m +:+ truncate (room buffer last) t.

Module MoreSamples.

(** A crash whose call stack could not be read at all. *)
Definition no_frames : OS := {|
  uname := uname Samples.linux;
  errno := 0;
  strerror := strerror Samples.linux;
  strsignal := strsignal Samples.linux;
  callstack := [];
  symbol_of := symbol_of Samples.linux;
  getcontext_ok := true;
  dladdr := dladdr Samples.linux;
  stale_context := [];
  null_text := "(null)"
|}.

(** The machine of [Samples.linux] with the call stack [frames]. *)
Definition with_stack (frames : list Z) : OS := {|
  uname := uname Samples.linux;
  errno := 0;
  strerror := strerror Samples.linux;
  strsignal := strsignal Samples.linux;
  callstack := frames;
  symbol_of := symbol_of Samples.linux;
  getcontext_ok := true;
  dladdr := dladdr Samples.linux;
  stale_context := [];
  null_text := "(null)"
|}.

(** A crash inside a library without symbol table: [dladdr()] finds the
    module of the program counter and no symbol, and returns a non-zero value
    with [dli_sname] and [dli_saddr] null. *)
Definition stripped_library : OS := {|
  uname := uname Samples.linux;
  errno := 0;
  strerror := strerror Samples.linux;
  strsignal := strsignal Samples.linux;
  callstack := [4198656];
  symbol_of := symbol_of Samples.linux;
  getcontext_ok := true;
  dladdr := fun _ =>
    Some {| dli_fname := Some "/usr/lib/libc.so.1"; dli_sname := None;
            dli_saddr := 0 |};
  stale_context := [];
  null_text := "(null)"
|}.

(** A process that bound SIGTERM (15) to a handler of its own and ignores
    SIGPIPE (13) before the crash logger is installed. *)
Definition server : World := {|
  dispositions := <[15 := SIG_other 4210688]> (<[13 := SIG_IGN]> ∅);
  emergency_savegame := false;
  missing_newgrfs := false;
  system := Samples.linux;
  crash_message := EmptyString;
  crashlog_capacity := 65536;
  presentation := fun _ => [];
  history := []
|}.

End MoreSamples.

(* ===================================================================== *)
(** * Facts about text *)
(* ===================================================================== *)

Section TextFacts.

Lemma append_empty_r (s : string) : s +:+ EmptyString = s.
Proof. induction s as [|c s IH]; cbn; [reflexivity | now f_equal]. Qed.

Lemma append_assoc (a b c : string) : (a +:+ b) +:+ c = a +:+ b +:+ c.
Proof. induction a as [|x a IH]; cbn; [reflexivity | now f_equal]. Qed.

Lemma length_append (a b : string) :
  String.length (a +:+ b) = (String.length a + String.length b)%nat.
Proof. induction a as [|x a IH]; cbn; [reflexivity | now f_equal]. Qed.

Lemma truncate_empty (n : nat) : truncate n EmptyString = EmptyString.
Proof. destruct n; reflexivity. Qed.

Lemma truncate_all (n : nat) (s : string) :
  (String.length s <= n)%nat -> truncate n s = s.
Proof.
  revert n; induction s as [|c s IH]; intros n Hn.
  - apply truncate_empty.
  - destruct n as [|n]; simpl in *; [lia |].
    rewrite IH; [reflexivity | lia].
Qed.

Lemma length_truncate (n : nat) (s : string) :
  String.length (truncate n s) = Nat.min n (String.length s).
Proof.
  revert n; induction s as [|c s IH]; intros [|n]; simpl; try reflexivity.
  now rewrite IH.
Qed.

Lemma truncate_append (n : nat) (a b : string) :
  truncate n (a +:+ b) = truncate n a +:+ truncate (n - String.length a) b.
Proof.
  revert n; induction a as [|c a IH]; intros n; simpl.
  - rewrite truncate_empty, Nat.sub_0_r. reflexivity.
  - destruct n as [|n]; simpl; [reflexivity |].
    now rewrite IH.
Qed.

Lemma truncate_min (n : nat) (s : string) :
  truncate (Nat.min n (String.length s)) s = truncate n s.
Proof.
  revert n; induction s as [|c s IH]; intros [|n]; simpl; try reflexivity.
  now rewrite IH.
Qed.

Lemma prefix_truncate (p : string) (n : nat) (s : string) :
  String.prefix p (truncate n s) = true -> String.prefix p s = true.
Proof.
  revert n s; induction p as [|c p IH]; intros n s H; [destruct s; reflexivity|].
  destruct s as [|d s]; [now rewrite truncate_empty in H |].
  destruct n as [|n]; simpl in H; [discriminate |].
  simpl. destruct (ascii_dec c d); [eauto | discriminate].
Qed.

Lemma count_frame_lines_truncate (n : nat) (s : string) :
  (count_frame_lines (truncate n s) <= count_frame_lines s)%nat.
Proof.
  revert n; induction s as [|c s IH]; intros [|n]; simpl; try lia.
  specialize (IH n).
  destruct (Ascii.eqb c LF); simpl; [| lia].
  destruct (String.prefix " [" (truncate n s)) eqn:Hp.
  - apply prefix_truncate in Hp. rewrite Hp. lia.
  - destruct (String.prefix " [" s); lia.
Qed.

(** A text without line feed, its line feed, then the rest: the only place
    where a frame line can start is right after that line feed. *)
Lemma count_frame_lines_line (l rest : string) :
  no_newline l = true ->
  count_frame_lines (l +:+ nl +:+ rest) =
  ((if String.prefix " [" rest then 1 else 0) + count_frame_lines rest)%nat.
Proof.
  induction l as [|c l IH]; intros Hl.
  - simpl. reflexivity.
  - simpl in Hl. apply andb_true_iff in Hl as [Hc Hl].
    cbn [append count_frame_lines].
    apply negb_true_iff in Hc. rewrite Hc. simpl. auto.
Qed.

Lemma no_newline_append (a b : string) :
  no_newline (a +:+ b) = no_newline a && no_newline b.
Proof.
  induction a as [|c a IH]; simpl; [reflexivity |].
  now rewrite IH, andb_assoc.
Qed.

Lemma contains_intro (pre needle post : string) :
  contains needle (pre +:+ needle +:+ post).
Proof. exists pre, post. reflexivity. Qed.

End TextFacts.

(* ===================================================================== *)
(** * Facts about the bounded buffer *)
(* ===================================================================== *)

Section BufferFacts.

Local Open Scope buf_scope.

Lemma seprintf_stored (buffer last : Z) (s m : string) :
  seprintf buffer last s m =
  (Z.of_nat (Nat.min (room buffer last) (String.length s)),
   m +:+ truncate (room buffer last) s).
Proof.
  unfold seprintf, room.
  destruct (Z.ltb_spec (last - buffer) 0) as [Hneg | Hpos].
  - replace (Z.to_nat (last - buffer)) with O by lia.
    simpl. now rewrite append_empty_r.
  - f_equal; [lia |].
    f_equal. rewrite <- (truncate_min (Z.to_nat (last - buffer)) s).
    f_equal. lia.
Qed.

(** One [buffer + seprintf(buffer, last, ...)]. *)
Lemma writes_seprintf (s : string) :
  writes (fun buffer last => n <- seprintf buffer last s ;; ret (buffer + n)) s.
Proof.
  intros buffer last m. unfold bind, ret, stored.
  now rewrite seprintf_stored.
Qed.

Lemma room_stored (buffer last : Z) (k : nat) :
  room (buffer + Z.of_nat (Nat.min (room buffer last) k)) last =
  (room buffer last - k)%nat.
Proof. unfold room. lia. Qed.

Lemma stored_stored (buffer last : Z) (m s1 s2 : string) :
  stored (fst (stored buffer last m s1)) last (snd (stored buffer last m s1)) s2 =
  stored buffer last m (s1 +:+ s2).
Proof.
  unfold stored; cbn [fst snd].
  rewrite room_stored, truncate_append, length_append, append_assoc.
  f_equal. lia.
Qed.

(** Two operations in sequence, the second one starting at the cursor the
    first one returned, write the concatenation of their texts. *)
Lemma writes_seq (op1 op2 : Z -> Z -> Buf Z) (s1 s2 : string) :
  writes op1 s1 -> writes op2 s2 ->
  writes (fun buffer last => b <- op1 buffer last ;; op2 b last) (s1 +:+ s2).
Proof.
  intros H1 H2 buffer last m. unfold bind.
  rewrite H1. rewrite <- stored_stored.
  destruct (stored buffer last m s1) as [b m'] eqn:E. cbn [fst snd].
  apply H2.
Qed.

Lemma writes_ext (op op' : Z -> Z -> Buf Z) (s : string) :
  (forall buffer last m, op buffer last m = op' buffer last m) ->
  writes op' s -> writes op s.
Proof. intros E H buffer last m. rewrite E. apply H. Qed.

Lemma stored_empty (buffer last : Z) (m : string) :
  stored buffer last m EmptyString = (buffer, m).
Proof.
  unfold stored. rewrite truncate_empty, append_empty_r. simpl.
  f_equal. lia.
Qed.

(** The cursor never leaves the buffer. *)
Lemma stored_cursor (buffer last : Z) (m s : string) :
  buffer <= fst (stored buffer last m s) /\
  (buffer <= last -> fst (stored buffer last m s) <= last).
Proof. unfold stored, room; cbn [fst]. lia. Qed.

(** With room for the whole text, all of it is stored. *)
Lemma stored_fits (buffer last : Z) (m s : string) :
  Z.of_nat (String.length s) <= last - buffer ->
  stored buffer last m s = (buffer + Z.of_nat (String.length s), m +:+ s).
Proof.
  intros H. unfold stored, room.
  rewrite truncate_all by lia. f_equal. lia.
Qed.

(** A cursor that stays below the end of the buffer tells that nothing was
    cut. *)
Lemma stored_below_end (buffer last : Z) (m s : string) :
  fst (stored buffer last m s) < last ->
  stored buffer last m s = (buffer + Z.of_nat (String.length s), m +:+ s).
Proof.
  intros H. apply stored_fits. unfold stored, room in H. cbn [fst] in H. lia.
Qed.

End BufferFacts.

(* ===================================================================== *)
(** * The text of each report section *)
(* ===================================================================== *)

Section SectionTexts.

Local Open Scope buf_scope.

Lemma unlines_app (l1 l2 : list string) :
  unlines (l1 ++ l2) = unlines l1 +:+ unlines l2.
Proof.
  induction l1 as [|l l1 IH]; [reflexivity |].
  cbn [unlines app]. now rewrite IH, !append_assoc.
Qed.

Lemma writes_text (op : Z -> Z -> Buf Z) (s s' : string) :
  s = s' -> writes op s' -> writes op s.
Proof. now intros ->. Qed.

Lemma LogOSVersion_failure (os : OS) :
  uname os = None ->
  writes (LogOSVersion os)
    (unlines ["Could not get OS version: " +:+ strerror os (errno os)]).
Proof.
  intros E. unfold LogOSVersion. rewrite E.
  cbn [unlines]. rewrite append_empty_r, append_assoc.
  apply writes_seprintf.
Qed.

Lemma LogOSVersion_success (os : OS) (name : utsname) :
  uname os = Some name ->
  writes (LogOSVersion os)
    (unlines ("Operating system:" ::
              map indent ["Name:     " +:+ sysname name;
                          "Release:  " +:+ release name;
                          "Version:  " +:+ version name;
                          "Machine:  " +:+ machine name])).
Proof.
  intros E. unfold LogOSVersion. rewrite E.
  cbn [unlines map]. unfold indent. rewrite append_empty_r, !append_assoc.
  apply writes_seprintf.
Qed.

Lemma LogError_writes (this : CrashLogUnix) (os : OS) (message : string) :
  writes (fun buffer last => LogError this os buffer last message)
    (unlines ("Crash reason:" ::
              map indent ["Signal:  " +:+ strsignal os (signum this) +:+
                            " (" +:+ fmt_d (signum this) +:+ ")";
                          "Message: " +:+ message] ++ [EmptyString])).
Proof.
  unfold LogError.
  cbn [unlines map app]. unfold indent. rewrite append_empty_r, !append_assoc.
  apply writes_seprintf.
Qed.

(** The glibc loop writes one line per remaining iteration. *)
Lemma LogStacktrace_for_writes (messages : list string) (remaining i : nat) :
  writes (LogStacktrace_for remaining (Z.of_nat i) messages)
    (unlines (map (fun j => glibc_frame_line (Z.of_nat j, nth j messages EmptyString))
                  (seq i remaining))).
Proof.
  revert i; induction remaining as [|k IH]; intros i.
  - intros buffer last m. cbn. now rewrite stored_empty.
  - cbn [seq map unlines LogStacktrace_for].
    rewrite <- (append_assoc (glibc_frame_line _) nl _).
    eapply writes_ext;
      [| apply (writes_seq _ _ _ _
                  (writes_seprintf
                     (glibc_frame_line (Z.of_nat i, nth i messages EmptyString) +:+ nl))
                  (IH (S i)))].
    intros buffer last m. unfold bind, ret.
    unfold glibc_frame_line; cbn [fst snd].
    rewrite Nat2Z.id, !append_assoc.
    destruct (seprintf _ _ _ m) as [n m'].
    replace (Z.of_nat (S i)) with (Z.of_nat i + 1) by lia.
    reflexivity.
Qed.

Lemma numbered_seq {A} (d : A) (l : list A) (i : nat) (k : nat) :
  map (fun j => (Z.of_nat j, nth (j - i) l d)) (seq i (length l)) =
  numbered (Z.of_nat i) l.
Proof.
  revert i; induction l as [|x l IH]; intros i; [reflexivity |].
  cbn [length seq map numbered]. rewrite Nat.sub_diag. cbn [nth].
  replace (Z.of_nat i + 1) with (Z.of_nat (S i)) by lia.
  rewrite <- IH. f_equal.
  apply map_ext_in. intros j Hj. apply in_seq in Hj.
  replace (j - i)%nat with (S (j - S i)) by lia. reflexivity.
Qed.

Lemma length_numbered {A} (start : Z) (l : list A) :
  length (numbered start l) = length l.
Proof. revert start; induction l; intros; simpl; auto. Qed.

(** The stack-trace section of the glibc variant. *)
Lemma LogStacktrace_GLIBC_writes (os : OS) :
  writes (LogStacktrace GLIBC os)
    (unlines ("Stacktrace:" ::
              map glibc_frame_line
                (numbered 0 (map (symbol_of os) (firstn 64 (callstack os))))
              ++ [EmptyString])).
Proof.
  set (messages := map (symbol_of os) (firstn 64 (callstack os))).
  assert (Hm : backtrace_symbols os (backtrace os lengthof_trace)
                 (length (backtrace os lengthof_trace)) = messages).
  { unfold backtrace_symbols, backtrace, lengthof_trace, messages.
    now rewrite firstn_all. }
  assert (Hl : length (backtrace os lengthof_trace) = length messages).
  { unfold messages, backtrace, lengthof_trace. now rewrite length_map. }
  eapply writes_ext;
    [| eapply writes_text;
       [| apply (writes_seq _ _ _ _ (writes_seprintf ("Stacktrace:" +:+ nl))
                   (writes_seq _ _ _ _
                      (LogStacktrace_for_writes messages (length messages) 0)
                      (writes_seprintf nl)))]].
  - intros buffer last m. unfold LogStacktrace, bind, ret.
    rewrite Hm, Hl.
    destruct (seprintf buffer last _ m) as [n m']. reflexivity.
  - pose proof (numbered_seq EmptyString messages 0 0) as Hn.
    change (Z.of_nat 0) with 0 in Hn. rewrite <- Hn.
    rewrite map_map.
    cbn [unlines]. rewrite unlines_app. cbn [unlines].
    rewrite !append_assoc, ?append_empty_r.
    do 4 f_equal. apply map_ext. intros j. now rewrite Nat.sub_0_r.
Qed.

Lemma LogStacktrace_OTHER_writes (os : OS) :
  writes (LogStacktrace OTHER os)
    (unlines ["Stacktrace:"; " Not supported."; EmptyString]).
Proof.
  cbn [unlines]. rewrite append_empty_r.
  rewrite <- (append_assoc "Stacktrace:" nl), <- (append_assoc " Not supported." nl).
  eapply writes_ext;
    [| apply (writes_seq _ _ _ _ (writes_seprintf ("Stacktrace:" +:+ nl))
                (writes_seq _ _ _ _ (writes_seprintf (" Not supported." +:+ nl))
                   (writes_seprintf nl)))].
  intros buffer last m. unfold LogStacktrace, bind, ret.
  destruct (seprintf buffer last _ m) as [n m'].
  destruct (seprintf (buffer + n) last _ m') as [n' m'']. reflexivity.
Qed.


(** One call of the walker stores the line of its frame and moves to the
    next stack level. *)
Lemma SunOSStackWalker_stored (os : OS) (pc sig : Z) (wp : StackWalkerParams)
    (m : string) :
  SunOSStackWalker os pc sig wp m =
  let r := stored (bufptr wp) (wp_last wp) m
             (sunos_frame_line os (counter wp, pc) +:+ nl) in
  ((0, {| bufptr := fst r; wp_last := wp_last wp; counter := counter wp + 1 |}),
   snd r).
Proof.
  unfold SunOSStackWalker, sunos_frame_line, bind, ret, stored.
  destruct (dladdr os pc) as [dli|];
    rewrite seprintf_stored, ?append_assoc; reflexivity.
Qed.

(** The walk visits every frame of the context: the walker never stops it. *)
Lemma walkcontext_stored (os : OS) (uc : ucontext_t) (wp : StackWalkerParams)
    (m : string) :
  walkcontext uc (SunOSStackWalker os) wp m =
  let r := stored (bufptr wp) (wp_last wp) m
             (unlines (map (sunos_frame_line os) (numbered (counter wp) uc))) in
  ({| bufptr := fst r; wp_last := wp_last wp;
      counter := counter wp + Z.of_nat (length uc) |},
   snd r).
Proof.
  revert wp m; induction uc as [|pc uc IH]; intros wp m.
  - cbn [walkcontext numbered map unlines length]. rewrite stored_empty.
    unfold ret. cbn [fst snd]. destruct wp; cbn. do 2 f_equal. lia.
  - cbn [walkcontext numbered map unlines length]. unfold bind.
    rewrite SunOSStackWalker_stored. cbv zeta. cbn [fst snd].
    rewrite Z.eqb_refl, IH. cbv zeta. cbn [bufptr wp_last counter].
    rewrite <- (append_assoc _ nl _).
    rewrite <- (stored_stored _ _ m (sunos_frame_line os (counter wp, pc) +:+ nl)).
    do 2 f_equal. lia.
Qed.

(** The stack-trace section of the context-walking variant when the context
    could not be obtained. *)
Lemma LogStacktrace_SUNOS_failure (os : OS) :
  getcontext_ok os = false ->
  writes (LogStacktrace SUNOS os)
    (unlines ["Stacktrace:"; " getcontext() failed"; EmptyString]).
Proof.
  intros E.
  eapply writes_ext;
    [| eapply writes_text;
       [| apply (writes_seq _ _ _ _ (writes_seprintf ("Stacktrace:" +:+ nl))
                   (writes_seprintf (" getcontext() failed" +:+ nl +:+ nl)))]].
  - intros buffer last m. unfold LogStacktrace, getcontext, bind, ret.
    rewrite E. destruct (seprintf buffer last _ m) as [n m']. reflexivity.
  - cbn [unlines]. now rewrite !append_assoc, ?append_empty_r.
Qed.

(** The stack-trace section of the context-walking variant when the context
    was obtained: one line per frame of the call stack. *)
Lemma LogStacktrace_SUNOS_writes (os : OS) :
  getcontext_ok os = true ->
  writes (LogStacktrace SUNOS os)
    (unlines ("Stacktrace:" ::
              map (sunos_frame_line os) (numbered 0 (callstack os))
              ++ [EmptyString])).
Proof.
  intros E.
  set (walk := fun buffer last : Z =>
         wp <- walkcontext (callstack os) (SunOSStackWalker os)
                 {| bufptr := buffer; wp_last := last; counter := 0 |} ;;
         ret (bufptr wp)).
  assert (Hwalk : writes walk
            (unlines (map (sunos_frame_line os) (numbered 0 (callstack os))))).
  { intros buffer last m. unfold walk, bind, ret.
    rewrite walkcontext_stored. cbv zeta. cbn [bufptr wp_last counter].
    now destruct (stored buffer last m _). }
  eapply writes_ext;
    [| eapply writes_text;
       [| apply (writes_seq _ _ _ _ (writes_seprintf ("Stacktrace:" +:+ nl))
                   (writes_seq _ _ _ _ Hwalk (writes_seprintf nl)))]].
  - intros buffer last m. unfold LogStacktrace, getcontext, walk, bind, ret.
    rewrite E. cbn [negb Z.eqb].
    destruct (seprintf buffer last _ m) as [n m'].
    destruct (walkcontext _ _ _ m') as [wp m'']. reflexivity.
  - cbn [unlines]. rewrite unlines_app. cbn [unlines].
    now rewrite !append_assoc, ?append_empty_r.
Qed.

End SectionTexts.

(* ===================================================================== *)
(** * Counting frame lines *)
(* ===================================================================== *)

Section FrameLines.

Lemma no_newline_dec_uint (d : Decimal.uint) :
  no_newline (DecimalString.NilEmpty.string_of_uint d) = true.
Proof. induction d; simpl; auto. Qed.

Lemma no_newline_fmt_d (z : Z) : no_newline (fmt_d z) = true.
Proof.
  assert (H : forall d, no_newline (DecimalString.NilZero.string_of_uint d) = true).
  { intros d; destruct d; try reflexivity; apply no_newline_dec_uint. }
  unfold fmt_d, DecimalString.NilZero.string_of_int.
  destruct (Z.to_int z) as [d | d]; [apply H |].
  cbn [no_newline]. now rewrite H.
Qed.

Lemma no_newline_fmt_02i (z : Z) : no_newline (fmt_02i z) = true.
Proof.
  unfold fmt_02i. destruct (_ <? _)%nat; [simpl |]; apply no_newline_fmt_d.
Qed.

Lemma no_newline_hex_uint (d : Hexadecimal.uint) :
  no_newline (HexadecimalString.NilEmpty.string_of_uint d) = true.
Proof. induction d; simpl; auto. Qed.

Lemma no_newline_fmt_x (z : Z) : no_newline (fmt_x z) = true.
Proof.
  unfold fmt_x, HexadecimalString.NilZero.string_of_uint.
  destruct (N.to_hex_uint _); try reflexivity; apply no_newline_hex_uint.
Qed.

Lemma prefix_cons (c d : ascii) (p s : string) :
  String.prefix (String c p) (String d s) =
  if ascii_dec c d then String.prefix p s else false.
Proof. reflexivity. Qed.

(** Whether a line begins a frame does not depend on what follows its line
    feed. *)
Lemma prefix_frame_line (l rest : string) :
  no_newline l = true ->
  String.prefix " [" (l +:+ nl +:+ rest) = String.prefix " [" l.
Proof.
  intros Hl.
  destruct l as [|c [|d l]]; [reflexivity | |];
    cbn [String.append]; rewrite !prefix_cons;
    destruct (ascii_dec " " c); try reflexivity.
  destruct (ascii_dec "[" d); [| reflexivity].
  destruct l; reflexivity.
Qed.

(** In a text made of lines, the frame lines are the lines after the first
    one that begin with [" ["]. *)
Lemma count_frame_lines_unlines (l : string) (ls : list string) :
  no_newline l = true ->
  Forall (fun x => no_newline x = true) ls ->
  count_frame_lines (unlines (l :: ls)) =
  length (filter (fun x => String.prefix " [" x = true) ls).
Proof.
  revert l; induction ls as [|x ls IH]; intros l Hl Hls.
  - cbn [unlines]. rewrite count_frame_lines_line by assumption. reflexivity.
  - inversion Hls as [|? ? Hx Hls']; subst.
    change (unlines (l :: x :: ls)) with (l +:+ nl +:+ unlines (x :: ls)).
    rewrite count_frame_lines_line by assumption.
    rewrite (IH x Hx Hls'). cbn [unlines].
    rewrite prefix_frame_line by assumption.
    rewrite filter_cons.
    destruct (String.prefix " [" x); [rewrite decide_True by reflexivity |
                                      rewrite decide_False by discriminate];
      reflexivity.
Qed.

Lemma filter_frame_lines_all (ls : list string) :
  Forall (fun x => String.prefix " [" x = true) ls ->
  filter (fun x => String.prefix " [" x = true) (ls ++ [EmptyString])%list = ls.
Proof.
  induction 1 as [|x ls Hx _ IH]; [reflexivity |].
  cbn [app]. rewrite filter_cons, decide_True by assumption. now rewrite IH.
Qed.

(** A stack-trace section holds as many frame lines as the lines between its
    header and its closing blank line, when these are frame lines. *)
Lemma count_frame_lines_section (lines : list string) :
  Forall (fun x => no_newline x = true) lines ->
  Forall (fun x => String.prefix " [" x = true) lines ->
  count_frame_lines (unlines ("Stacktrace:" :: lines ++ [EmptyString])) =
  length lines.
Proof.
  intros Hn Hp.
  rewrite count_frame_lines_unlines.
  - now rewrite filter_frame_lines_all.
  - reflexivity.
  - apply Forall_app; split; [assumption |]. now constructor.
Qed.

Lemma prefix_frame_open (rest : string) :
  String.prefix " [" (" [" +:+ rest) = true.
Proof. destruct rest; reflexivity. Qed.

Lemma glibc_frame_lines_ok (msgs : list (Z * string)) :
  Forall (fun f => no_newline (snd f) = true) msgs ->
  Forall (fun x => no_newline x = true) (map glibc_frame_line msgs) /\
  Forall (fun x => String.prefix " [" x = true) (map glibc_frame_line msgs).
Proof.
  intros H; split; apply Forall_map;
    [| apply Forall_forall; intros x _; apply prefix_frame_open].
  eapply Forall_impl; [exact H |]. intros [i msg] Hm; cbn [snd fst] in *.
  unfold glibc_frame_line; cbn [fst snd].
  rewrite !no_newline_append, no_newline_fmt_02i, Hm. reflexivity.
Qed.

Lemma sunos_frame_lines_ok (os : OS) (frames : list (Z * Z)) :
  (forall pc dli, dladdr os pc = Some dli ->
     no_newline (fmt_s os (dli_fname dli)) = true /\
     no_newline (fmt_s os (dli_sname dli)) = true) ->
  Forall (fun x => no_newline x = true) (map (sunos_frame_line os) frames) /\
  Forall (fun x => String.prefix " [" x = true) (map (sunos_frame_line os) frames).
Proof.
  intros H; split; apply Forall_map; apply Forall_forall; intros [i pc] _;
    unfold sunos_frame_line; destruct (dladdr os pc) as [dli|] eqn:E;
    try apply prefix_frame_open.
  - destruct (H pc dli E) as [Hf Hs].
    rewrite !no_newline_append, no_newline_fmt_02i, !no_newline_fmt_x, Hf, Hs.
    reflexivity.
  - rewrite !no_newline_append, no_newline_fmt_02i, !no_newline_fmt_x.
    reflexivity.
Qed.

Lemma numbered_snd {A} (P : A -> Prop) (start : Z) (l : list A) :
  Forall P l -> Forall (fun f => P (snd f)) (numbered start l).
Proof.
  intros H; revert start; induction H; intros start; cbn [numbered];
    constructor; auto.
Qed.

Lemma nth_error_numbered {A B} (f : Z * A -> B) (start : Z) (l : list A)
    (i : nat) (x : A) :
  nth_error l i = Some x ->
  nth_error (map f (numbered start l)) i = Some (f (start + Z.of_nat i, x)).
Proof.
  revert start i; induction l as [|y l IH]; intros start [|i] H;
    try discriminate; cbn in *.
  - injection H as ->. now rewrite Z.add_0_r.
  - rewrite (IH (start + 1) i H). do 3 f_equal. lia.
Qed.

End FrameLines.

(* ===================================================================== *)
(** * Facts about the signal table *)
(* ===================================================================== *)

Section SignalFacts.

Local Open Scope proc_scope.

Lemma rebound_cons (i : Z) (array : list Z) (handler : sighandler) (w : World) :
  rebound (i :: array) handler w =
  rebound array handler
    (bind_signal i handler (record_call (signal_call i handler) w)).
Proof. reflexivity. Qed.

Lemma for_each_signal (array : list Z) (handler : sighandler) (w : World) :
  for_each array (fun i => signal i handler) w =
  Returns tt (rebound array handler w).
Proof.
  revert w; induction array as [|i array IH]; intros w; [reflexivity |].
  cbn [for_each]. unfold pbind at 1. unfold signal at 1.
  now rewrite IH, rebound_cons.
Qed.

Lemma rebound_history (array : list Z) (handler : sighandler) (w : World) :
  history (rebound array handler w) =
  (history w ++ signal_calls array handler)%list.
Proof.
  revert w; induction array as [|i array IH]; intros w.
  - cbn. now rewrite app_nil_r.
  - rewrite rebound_cons, IH. cbn. now rewrite <- app_assoc.
Qed.

Lemma rebound_lookup (array : list Z) (handler : sighandler) (w : World)
    (sig : Z) :
  dispositions (rebound array handler w) !! sig =
  if decide (sig ∈ array) then Some handler else dispositions w !! sig.
Proof.
  revert w; induction array as [|i array IH]; intros w.
  - cbn. now rewrite decide_False by apply not_elem_of_nil.
  - rewrite rebound_cons, IH.
    cbn [bind_signal record_call dispositions].
    destruct (decide (sig ∈ array)) as [Hin | Hout].
    + rewrite decide_True by (now right). reflexivity.
    + destruct (decide (i = sig)) as [-> | Hne].
      * rewrite decide_True by (now left). apply lookup_insert_eq.
      * rewrite decide_False by (rewrite elem_of_cons; intros [? | ?]; congruence).
        now rewrite lookup_insert_ne.
Qed.

Lemma rebound_fields (array : list Z) (handler : sighandler) (w : World) :
  emergency_savegame (rebound array handler w) = emergency_savegame w /\
  missing_newgrfs (rebound array handler w) = missing_newgrfs w /\
  system (rebound array handler w) = system w /\
  crash_message (rebound array handler w) = crash_message w /\
  crashlog_capacity (rebound array handler w) = crashlog_capacity w /\
  presentation (rebound array handler w) = presentation w.
Proof.
  revert w; induction array as [|i array IH]; intros w; [now cbn |].
  rewrite rebound_cons.
  destruct (IH (bind_signal i handler (record_call (signal_call i handler) w)))
    as (-> & -> & -> & -> & -> & ->).
  now cbn.
Qed.

Lemma rebound_disposition_in (array : list Z) (handler : sighandler)
    (w : World) (sig : Z) :
  In sig array -> disposition (rebound array handler w) sig = handler.
Proof.
  intros H. apply list_elem_of_In in H.
  unfold disposition. rewrite rebound_lookup.
  now rewrite decide_True.
Qed.

Lemma rebound_disposition_out (array : list Z) (handler : sighandler)
    (w : World) (sig : Z) :
  ~ In sig array ->
  disposition (rebound array handler w) sig = disposition w sig.
Proof.
  intros H. rewrite <- list_elem_of_In in H.
  unfold disposition. rewrite rebound_lookup.
  now rewrite decide_False.
Qed.

(** Binding the same signals to the same handler a second time leaves the
    table as the first time left it. *)
Lemma rebound_twice (array : list Z) (handler : sighandler) (w : World) :
  dispositions (rebound array handler (rebound array handler w)) =
  dispositions (rebound array handler w).
Proof.
  apply map_eq. intros sig. rewrite !rebound_lookup.
  now destruct (decide (sig ∈ array)).
Qed.

Lemma record_calls_fields (es : list Event) (w : World) :
  record_calls es w =
  {| dispositions := dispositions w;
     emergency_savegame := emergency_savegame w;
     missing_newgrfs := missing_newgrfs w;
     system := system w;
     crash_message := crash_message w;
     crashlog_capacity := crashlog_capacity w;
     presentation := presentation w;
     history := history w ++ es |}.
Proof.
  revert w; induction es as [|e es IH]; intros w.
  - cbn. rewrite app_nil_r. now destruct w.
  - cbn [record_calls fold_left]. fold (record_calls es (record_call e w)).
    rewrite IH. cbn. now rewrite <- app_assoc.
Qed.

Lemma no_signal_call_in_printfs (texts : list string) :
  forallb (fun e => negb (is_signal_call e)) (map printf_call texts) = true.
Proof. induction texts; cbn; auto. Qed.

(** The statements after the disarming loop make no call to [signal()] and
    leave the table alone. *)
Lemma HandleCrash_report_run (p : Platform) (signum : Z) (w : World) :
  exists rest,
    HandleCrash_report p signum w =
    Terminated
      {| dispositions := dispositions w;
         emergency_savegame := emergency_savegame w;
         missing_newgrfs := missing_newgrfs w;
         system := system w;
         crash_message := crash_message w;
         crashlog_capacity := crashlog_capacity w;
         presentation := presentation w;
         history := history w ++ GamelogTestEmergency_call :: rest ++ [abort_call] |} /\
    forallb (fun e => negb (is_signal_call e)) rest = true /\
    rest = calls_after_emergency_check p signum w.
Proof.
  exists (calls_after_emergency_check p signum w).
  split; [| split; [| reflexivity]].
  - destruct w as [d e g os msg cap pres h].
    unfold calls_after_emergency_check.
    cbn [emergency_savegame missing_newgrfs system crash_message
         crashlog_capacity presentation history dispositions].
    destruct e; [| destruct g].
    + unfold HandleCrash_report, pbind, GamelogTestEmergency, printf, abort,
        record_call; cbn [emergency_savegame missing_newgrfs history
                          dispositions system crash_message crashlog_capacity
                          presentation].
      rewrite <- !app_assoc. reflexivity.
    + unfold HandleCrash_report, pbind, GamelogTestEmergency,
        SaveloadCrashWithMissingNewGRFs, printf, abort, pret, record_call;
        cbn [emergency_savegame missing_newgrfs history
             dispositions system crash_message crashlog_capacity presentation].
      rewrite <- !app_assoc. reflexivity.
    + unfold HandleCrash_report, pbind, GamelogTestEmergency,
        SaveloadCrashWithMissingNewGRFs, pret, CrashLogUnix_new,
        MakeCrashLog, AfterCrashLogCleanup, abort, printf, record_call;
        cbn [emergency_savegame missing_newgrfs history
             dispositions system crash_message crashlog_capacity presentation].
      rewrite record_calls_fields.
      cbn [emergency_savegame missing_newgrfs history
           dispositions system crash_message crashlog_capacity presentation].
      rewrite <- !app_assoc. cbn [app]. reflexivity.
  - unfold calls_after_emergency_check.
    destruct (emergency_savegame w); [reflexivity |].
    destruct (missing_newgrfs w); [reflexivity |].
    rewrite !forallb_app, no_signal_call_in_printfs. reflexivity.
Qed.

End SignalFacts.

(* ===================================================================== *)
(** * The crash handler *)
(* ===================================================================== *)

Section CrashHandler.

Local Open Scope proc_scope.

(** C1.  The first thing [HandleCrash] does, before it consults a
    skip-predicate or produces any report text, is to call
    [signal(i, SIG_DFL)] for each of SIGSEGV, SIGABRT, SIGFPE, SIGBUS and
    SIGILL: its calls start with these five, the next one is the emergency
    check, and no later call touches a disposition.  From the end of the
    loop to the end of the handler, the delivery of a watched signal takes the
    default action and does not run [HandleCrash]. *)
Theorem HandleCrash_disarms_first (p : Platform) (signum : Z) (w : World) :
  exists w1 rest,
    HandleCrash_disarm w = Returns tt w1 /\
    HandleCrash p signum w = HandleCrash_report p signum w1 /\
    history w1 =
      (history w ++
       [signal_call SIGSEGV SIG_DFL; signal_call SIGABRT SIG_DFL;
        signal_call SIGFPE SIG_DFL; signal_call SIGBUS SIG_DFL;
        signal_call SIGILL SIG_DFL])%list /\
    history (final_world (HandleCrash p signum w)) =
      (history w1 ++ GamelogTestEmergency_call :: rest)%list /\
    forallb (fun e => negb (is_signal_call e)) rest = true /\
    dispositions (final_world (HandleCrash p signum w)) = dispositions w1 /\
    (forall sig, In sig _signals_to_handle ->
       disposition w1 sig = SIG_DFL /\
       deliver w1 sig = default_action /\
       deliver (final_world (HandleCrash p signum w)) sig = default_action /\
       deliver (final_world (HandleCrash p signum w)) sig <> runs_HandleCrash).
Proof.
  set (w1 := rebound _signals_to_handle SIG_DFL w).
  assert (Hd : HandleCrash_disarm w = Returns tt w1) by apply for_each_signal.
  assert (Hh : HandleCrash p signum w = HandleCrash_report p signum w1).
  { unfold HandleCrash, pbind. now rewrite Hd. }
  destruct (HandleCrash_report_run p signum w1) as (rest & Hrun & Hrest & _).
  exists w1, (rest ++ [abort_call])%list.
  split; [exact Hd |]. split; [exact Hh |].
  split; [apply rebound_history |].
  rewrite Hh, Hrun. cbn [final_world history dispositions].
  split; [reflexivity |].
  split.
  { rewrite forallb_app, Hrest. reflexivity. }
  split; [reflexivity |].
  intros sig Hsig.
  assert (Hdfl : disposition w1 sig = SIG_DFL)
    by now apply rebound_disposition_in.
  assert (Hdel : deliver w1 sig = default_action)
    by (unfold deliver; now rewrite Hdfl).
  assert (Hend : deliver
                   {| dispositions := dispositions w1;
                      emergency_savegame := emergency_savegame w1;
                      missing_newgrfs := missing_newgrfs w1;
                      system := system w1;
                      crash_message := crash_message w1;
                      crashlog_capacity := crashlog_capacity w1;
                      presentation := presentation w1;
                      history := history w1 ++ GamelogTestEmergency_call
                                   :: rest ++ [abort_call] |} sig =
                 default_action) by exact Hdel.
  repeat split; try assumption.
  rewrite Hend. discriminate.
Qed.

(** C2.  When one of the skip-predicates answers true (the emergency check is
    asked first, the missing-NewGRF check only when it answered false), the
    handler makes no call to the collector: after the disarming loop it asks
    the predicate, prints its fixed lines and calls [abort()]; no
    [CrashLogUnix] is constructed and no report section is produced. *)
Theorem HandleCrash_skips_collector (p : Platform) (signum : Z) (w : World) :
  emergency_savegame w = true \/ missing_newgrfs w = true ->
  exists w',
    HandleCrash p signum w = Terminated w' /\
    collector_calls (history w') = collector_calls (history w) /\
    history w' =
      (history w ++ signal_calls _signals_to_handle SIG_DFL ++
       (if emergency_savegame w then
          [GamelogTestEmergency_call;
           printf_call ("A serious fault condition occurred in the game. The game will shut down." +:+ nl);
           printf_call ("As you loaded an emergency savegame no crash information will be generated." +:+ nl);
           abort_call]
        else
          [GamelogTestEmergency_call;
           SaveloadCrashWithMissingNewGRFs_call;
           printf_call ("A serious fault condition occurred in the game. The game will shut down." +:+ nl);
           printf_call ("As you loaded an savegame for which you do not have the required NewGRFs" +:+ nl);
           printf_call ("no crash information will be generated." +:+ nl);
           abort_call]))%list.
Proof.
  intros Hskip.
  set (w1 := rebound _signals_to_handle SIG_DFL w).
  assert (Hh : HandleCrash p signum w = HandleCrash_report p signum w1).
  { unfold HandleCrash, pbind, HandleCrash_disarm. now rewrite for_each_signal. }
  destruct (HandleCrash_report_run p signum w1) as (rest & Hrun & _ & Hcalls).
  destruct (rebound_fields _signals_to_handle SIG_DFL w) as (He & Hm & _).
  fold w1 in He, Hm. unfold calls_after_emergency_check in Hcalls.
  rewrite He, Hm in Hcalls.
  eexists. split; [rewrite Hh; exact Hrun |].
  cbn [history]. unfold w1. rewrite rebound_history.
  assert (Hrest : (GamelogTestEmergency_call :: rest ++ [abort_call])%list =
                  if emergency_savegame w then
                    [GamelogTestEmergency_call;
                     printf_call ("A serious fault condition occurred in the game. The game will shut down." +:+ nl);
                     printf_call ("As you loaded an emergency savegame no crash information will be generated." +:+ nl);
                     abort_call]
                  else
                    [GamelogTestEmergency_call;
                     SaveloadCrashWithMissingNewGRFs_call;
                     printf_call ("A serious fault condition occurred in the game. The game will shut down." +:+ nl);
                     printf_call ("As you loaded an savegame for which you do not have the required NewGRFs" +:+ nl);
                     printf_call ("no crash information will be generated." +:+ nl);
                     abort_call]).
  { destruct (emergency_savegame w) eqn:E.
    - now rewrite Hcalls.
    - destruct Hskip as [Hskip | Hskip]; [discriminate |].
      rewrite Hskip in Hcalls. now rewrite Hcalls. }
  rewrite Hrest, <- app_assoc. split; [| reflexivity].
  unfold collector_calls. rewrite !filter_app.
  assert (Hs : filter (fun e => is_collector_call e)
                 (signal_calls _signals_to_handle SIG_DFL) = []) by reflexivity.
  rewrite Hs. destruct (emergency_savegame w); cbn; now rewrite app_nil_r.
Qed.

Lemma HandleCrash_skips_collector_emergency :
  exists w',
    HandleCrash GLIBC SIGSEGV (Samples.game true false Samples.linux) = Terminated w' /\
    collector_calls (history w') = [] /\
    history w' =
      [signal_call SIGSEGV SIG_DFL; signal_call SIGABRT SIG_DFL;
       signal_call SIGFPE SIG_DFL; signal_call SIGBUS SIG_DFL;
       signal_call SIGILL SIG_DFL;
       GamelogTestEmergency_call;
       printf_call ("A serious fault condition occurred in the game. The game will shut down." +:+ nl);
       printf_call ("As you loaded an emergency savegame no crash information will be generated." +:+ nl);
       abort_call].
Proof.
  apply (HandleCrash_skips_collector GLIBC SIGSEGV
           (Samples.game true false Samples.linux)).
  left. reflexivity.
Defined.

(** C3.  Whatever the skip-predicates answer, [HandleCrash] ends the process
    with [abort()]: on the emergency path, on the missing-NewGRF path and
    after the full capture its last call is [abort()], and it never returns
    to the code that faulted. *)
Theorem HandleCrash_always_aborts (p : Platform) (signum : Z) (w : World) :
  exists w' calls,
    HandleCrash p signum w = Terminated w' /\
    history w' = (history w ++ calls ++ [abort_call])%list /\
    forall w'', HandleCrash p signum w <> Returns tt w''.
Proof.
  set (w1 := rebound _signals_to_handle SIG_DFL w).
  assert (Hh : HandleCrash p signum w = HandleCrash_report p signum w1).
  { unfold HandleCrash, pbind, HandleCrash_disarm. now rewrite for_each_signal. }
  destruct (HandleCrash_report_run p signum w1) as (rest & Hrun & _).
  eexists.
  exists (signal_calls _signals_to_handle SIG_DFL ++
          GamelogTestEmergency_call :: rest)%list.
  rewrite Hh, Hrun. split; [reflexivity |]. split; [| discriminate].
  cbn [history]. unfold w1. rewrite rebound_history.
  rewrite <- !app_assoc. reflexivity.
Qed.

(** C9.  Installing twice is installing once: after a second
    [InitialiseCrashLog] the signal table is the one the first call left, in
    which every watched signal is bound to [HandleCrash]. *)
Theorem InitialiseCrashLog_idempotent (w : World) :
  exists w1 w2,
    InitialiseCrashLog w = Returns tt w1 /\
    InitialiseCrashLog w1 = Returns tt w2 /\
    (InitialiseCrashLog ;;; InitialiseCrashLog) w = Returns tt w2 /\
    dispositions w2 = dispositions w1 /\
    (forall sig, disposition w2 sig = disposition w1 sig) /\
    (forall sig, In sig _signals_to_handle ->
       disposition w1 sig = SIG_HandleCrash /\
       disposition w2 sig = SIG_HandleCrash).
Proof.
  exists (rebound _signals_to_handle SIG_HandleCrash w),
    (rebound _signals_to_handle SIG_HandleCrash
       (rebound _signals_to_handle SIG_HandleCrash w)).
  unfold InitialiseCrashLog, pbind. rewrite !for_each_signal.
  repeat split; try reflexivity.
  - apply rebound_twice.
  - unfold disposition. now rewrite rebound_twice.
  - now apply rebound_disposition_in.
  - now apply rebound_disposition_in.
Qed.

(** C10.  The disarming loop of [HandleCrash] sets the disposition of
    SIGSEGV, SIGABRT, SIGFPE, SIGBUS and SIGILL, and of no other signal:
    every other signal keeps the disposition it had. *)
Theorem HandleCrash_disarm_frame (w : World) :
  exists w1,
    HandleCrash_disarm w = Returns tt w1 /\
    (forall sig, In sig [SIGSEGV; SIGABRT; SIGFPE; SIGBUS; SIGILL] ->
       dispositions w1 !! sig = Some SIG_DFL /\ disposition w1 sig = SIG_DFL) /\
    (forall sig, ~ In sig [SIGSEGV; SIGABRT; SIGFPE; SIGBUS; SIGILL] ->
       dispositions w1 !! sig = dispositions w !! sig /\
       disposition w1 sig = disposition w sig).
Proof.
  exists (rebound _signals_to_handle SIG_DFL w).
  split; [apply for_each_signal |].
  split; intros sig Hsig.
  - split; [| now apply rebound_disposition_in].
    rewrite rebound_lookup, decide_True; [reflexivity |].
    now apply list_elem_of_In.
  - split; [| now apply rebound_disposition_out].
    rewrite rebound_lookup, decide_False; [reflexivity |].
    now rewrite list_elem_of_In.
Qed.

End CrashHandler.

(* ===================================================================== *)
(** * The report sections *)
(* ===================================================================== *)

Section Report.

(** C6.  [LogOSVersion] appends one line that names the reason when
    [uname()] fails, and otherwise a block of five lines: the header
    ["Operating system:"] and the fields Name, Release, Version and Machine,
    in this order.  The block is cut where the buffer ends; with room for it,
    it is stored whole. *)
Theorem LogOSVersion_block (os : OS) (buffer last : Z) (m : string) :
  let block :=
    match uname os with
    | None => unlines ["Could not get OS version: " +:+ strerror os (errno os)]
    | Some name =>
        unlines ["Operating system:";
                 " Name:     " +:+ sysname name;
                 " Release:  " +:+ release name;
                 " Version:  " +:+ version name;
                 " Machine:  " +:+ machine name]
    end in
  LogOSVersion os buffer last m = stored buffer last m block /\
  (Z.of_nat (String.length block) <= last - buffer ->
   LogOSVersion os buffer last m =
   (buffer + Z.of_nat (String.length block), m +:+ block)).
Proof.
  intros block.
  assert (H : LogOSVersion os buffer last m = stored buffer last m block).
  { unfold block. destruct (uname os) as [name|] eqn:E.
    - apply (LogOSVersion_success os name E).
    - apply (LogOSVersion_failure os E). }
  split; [exact H |].
  intros Hroom. rewrite H. now apply stored_fits.
Qed.

Lemma LogOSVersion_block_on_linux :
  LogOSVersion Samples.linux 0 65536 EmptyString =
  (88,
   "Operating system:" +:+ nl +:+
   " Name:     Linux" +:+ nl +:+
   " Release:  5.4.0" +:+ nl +:+
   " Version:  #1 SMP" +:+ nl +:+
   " Machine:  x86_64" +:+ nl).
Proof.
  destruct (LogOSVersion_block Samples.linux 0 65536 EmptyString) as [_ H].
  rewrite H; [reflexivity |].
  vm_compute. discriminate.
Defined.

(** C7.  [LogError] cannot fail: for every signal number, recognised or not,
    and every message it appends the block that holds the text [strsignal]
    gives for the number, the number in decimal and the message. *)
Theorem LogError_never_fails (this : CrashLogUnix) (os : OS)
    (buffer last : Z) (message m : string) :
  let block :=
    unlines ["Crash reason:";
             " Signal:  " +:+ strsignal os (signum this) +:+
               " (" +:+ fmt_d (signum this) +:+ ")";
             " Message: " +:+ message;
             EmptyString] in
  LogError this os buffer last message m = stored buffer last m block /\
  contains (strsignal os (signum this)) block /\
  contains (fmt_d (signum this)) block /\
  contains message block /\
  (Z.of_nat (String.length block) <= last - buffer ->
   LogError this os buffer last message m =
   (buffer + Z.of_nat (String.length block), m +:+ block)).
Proof.
  intros block.
  assert (H : LogError this os buffer last message m = stored buffer last m block)
    by apply (LogError_writes this os message).
  split; [exact H |].
  split.
  { exists ("Crash reason:" +:+ nl +:+ " Signal:  "),
      (" (" +:+ fmt_d (signum this) +:+ ")" +:+ nl +:+
       " Message: " +:+ message +:+ nl +:+ nl).
    unfold block. cbn [unlines].
    now rewrite !append_assoc, ?append_empty_r. }
  split.
  { exists ("Crash reason:" +:+ nl +:+ " Signal:  " +:+
            strsignal os (signum this) +:+ " ("),
      (")" +:+ nl +:+ " Message: " +:+ message +:+ nl +:+ nl).
    unfold block. cbn [unlines].
    now rewrite !append_assoc, ?append_empty_r. }
  split.
  { exists ("Crash reason:" +:+ nl +:+ " Signal:  " +:+
            strsignal os (signum this) +:+ " (" +:+ fmt_d (signum this) +:+
            ")" +:+ nl +:+ " Message: "),
      (nl +:+ nl).
    unfold block. cbn [unlines].
    now rewrite !append_assoc, ?append_empty_r. }
  intros Hroom. rewrite H. now apply stored_fits.
Qed.

Lemma LogError_never_fails_unknown_signal :
  LogError {| signum := -3 |} Samples.linux 0 65536 "out of memory" EmptyString =
  (72,
   "Crash reason:" +:+ nl +:+
   " Signal:  Unknown signal -3 (-3)" +:+ nl +:+
   " Message: out of memory" +:+ nl +:+ nl).
Proof.
  destruct (LogError_never_fails {| signum := -3 |} Samples.linux 0 65536
              "out of memory" EmptyString) as (_ & _ & _ & _ & H).
  rewrite H; [reflexivity |].
  vm_compute. discriminate.
Defined.

(** C8.  The walker falls back to the raw-address line only when
    [dladdr()] returns 0.  For a frame whose module is found and whose symbol
    is not, [dladdr()] returns a non-zero value with a null [dli_sname]: the
    walker then takes its first branch and hands the null pointer to [%s].
    Where the C library prints ["(null)"] for it, the frame line is the one
    below, not the raw-address line. *)
Lemma SunOSStackWalker_symbol_not_found :
  dladdr MoreSamples.stripped_library 4198656 =
    Some {| dli_fname := Some "/usr/lib/libc.so.1"; dli_sname := None;
            dli_saddr := 0 |} /\
  LogStacktrace SUNOS MoreSamples.stripped_library 0 65536 EmptyString =
    (66,
     "Stacktrace:" +:+ nl +:+
     " [00] /usr/lib/libc.so.1((null)+0x401100) [0x401100]" +:+ nl +:+
     nl) /\
  snd (LogStacktrace SUNOS MoreSamples.stripped_library 0 65536 EmptyString) <>
    "Stacktrace:" +:+ nl +:+ raw_address_line 0 4198656 +:+ nl +:+ nl.
Proof.
  split; [reflexivity |].
  split; [vm_compute; reflexivity |].
  vm_compute. discriminate.
Qed.

Lemma snd_stored_fresh (buffer last : Z) (s : string) :
  snd (stored buffer last EmptyString s) = truncate (room buffer last) s.
Proof. reflexivity. Qed.

Lemma glibc_lines_length (os : OS) :
  length (map glibc_frame_line
            (numbered 0 (map (symbol_of os) (firstn 64 (callstack os))))) =
  Nat.min 64 (length (callstack os)).
Proof. now rewrite length_map, length_numbered, length_map, length_take. Qed.

(** C5, as the code has it.  The frame-unwinding variant writes at most 64
    numbered frame lines, however deep the call stack: one per address that
    [backtrace()] stored in its array of 64.  The unsupported variant writes
    none, and so does the context-walking variant when [getcontext()] fails.
    When the context is obtained, the context-walking variant writes one
    numbered line per frame of the call stack, with no maximum: the walker
    always asks to continue.  What is stored is cut where the buffer ends; a cursor
    returned below the end of the buffer tells that nothing was cut. *)
Theorem LogStacktrace_frame_lines (os : OS) (buffer last : Z) :
  (exists lines,
     length lines = Nat.min 64 (length (callstack os)) /\
     (length lines <= 64)%nat /\
     forall m, LogStacktrace GLIBC os buffer last m =
               stored buffer last m
                 (unlines ("Stacktrace:" :: lines ++ [EmptyString]))) /\
  ((forall a, no_newline (symbol_of os a) = true) ->
   (count_frame_lines (snd (LogStacktrace GLIBC os buffer last EmptyString))
    <= 64)%nat) /\
  count_frame_lines (snd (LogStacktrace OTHER os buffer last EmptyString)) = O /\
  (getcontext_ok os = false ->
   count_frame_lines (snd (LogStacktrace SUNOS os buffer last EmptyString)) = O) /\
  (getcontext_ok os = true ->
   exists lines,
     length lines = length (callstack os) /\
     (forall m, LogStacktrace SUNOS os buffer last m =
                stored buffer last m
                  (unlines ("Stacktrace:" :: lines ++ [EmptyString]))) /\
     ((forall pc dli, dladdr os pc = Some dli ->
         no_newline (fmt_s os (dli_fname dli)) = true /\
         no_newline (fmt_s os (dli_sname dli)) = true) ->
      fst (LogStacktrace SUNOS os buffer last EmptyString) < last ->
      count_frame_lines (snd (LogStacktrace SUNOS os buffer last EmptyString)) =
      length (callstack os))).
Proof.
  split; [| split; [| split; [| split]]].
  - eexists. split; [apply glibc_lines_length |].
    split; [rewrite glibc_lines_length; lia |].
    intros m. apply LogStacktrace_GLIBC_writes.
  - intros Hsym.
    rewrite LogStacktrace_GLIBC_writes, snd_stored_fresh.
    etransitivity; [apply count_frame_lines_truncate |].
    destruct (glibc_frame_lines_ok
                (numbered 0 (map (symbol_of os) (firstn 64 (callstack os)))))
      as [Hn Hp].
    { apply (numbered_snd (fun s => no_newline s = true)).
      apply Forall_map, Forall_forall. intros a _. apply Hsym. }
    rewrite (count_frame_lines_section _ Hn Hp), glibc_lines_length. lia.
  - rewrite LogStacktrace_OTHER_writes, snd_stored_fresh.
    apply Nat.le_0_r.
    etransitivity; [apply count_frame_lines_truncate |]. now vm_compute.
  - intros E. rewrite (LogStacktrace_SUNOS_failure os E), snd_stored_fresh.
    apply Nat.le_0_r.
    etransitivity; [apply count_frame_lines_truncate |]. now vm_compute.
  - intros E.
    exists (map (sunos_frame_line os) (numbered 0 (callstack os))).
    split; [now rewrite length_map, length_numbered |].
    split; [intros m; apply (LogStacktrace_SUNOS_writes os E) |].
    intros Hnames Hroom.
    rewrite (LogStacktrace_SUNOS_writes os E) in *.
    rewrite (stored_below_end _ _ _ _ Hroom).
    cbn [snd String.append].
    destruct (sunos_frame_lines_ok os (numbered 0 (callstack os)) Hnames)
      as [Hn Hp].
    rewrite (count_frame_lines_section _ Hn Hp).
    now rewrite length_map, length_numbered.
Qed.

Lemma LogStacktrace_frame_lines_on_linux :
  (count_frame_lines (snd (LogStacktrace GLIBC Samples.linux 0 65536 EmptyString))
   <= 64)%nat /\
  count_frame_lines (snd (LogStacktrace SUNOS Samples.linux 0 65536 EmptyString)) =
  3%nat.
Proof.
  destruct (LogStacktrace_frame_lines Samples.linux 0 65536)
    as (_ & Hglibc & _ & _ & Hsunos).
  split.
  - apply Hglibc. intros a. cbn [symbol_of Samples.linux].
    now rewrite !no_newline_append, no_newline_fmt_x.
  - destruct (Hsunos eq_refl) as (lines & _ & _ & Hcount).
    apply Hcount.
    + intros pc dli. cbn [dladdr Samples.linux].
      destruct (pc =? 4198400); [| discriminate].
      intros [= <-]. split; reflexivity.
    + vm_compute. reflexivity.
Defined.

(** C5, as stated, fails in the context-walking variant: a crash 65 calls
    deep gets 65 numbered frame lines, [00] to [64], and no other number
    bounds the count either: a crash [n + 1] calls deep gets [n + 1] frame
    lines when the buffer has room for them. *)
Lemma LogStacktrace_SUNOS_exceeds_64 :
  count_frame_lines
    (snd (LogStacktrace SUNOS Samples.deep_recursion 0 65536 EmptyString)) = 65%nat /\
  occurs (nl +:+ " [64] [0x1400]" +:+ nl)
    (snd (LogStacktrace SUNOS Samples.deep_recursion 0 65536 EmptyString)) = true /\
  ~ (forall p os buffer last,
       (count_frame_lines (snd (LogStacktrace p os buffer last EmptyString))
        <= 64)%nat) /\
  (forall n : nat, exists last,
     count_frame_lines
       (snd (LogStacktrace SUNOS (Samples.recursion (S n)) 0 last EmptyString)) =
     S n).
Proof.
  split; [now vm_compute |]. split; [now vm_compute |].
  split.
  - intros H. specialize (H SUNOS Samples.deep_recursion 0 65536).
    vm_compute in H. lia.
  - intros n.
    set (os := Samples.recursion (S n)).
    set (lines := map (sunos_frame_line os) (numbered 0 (callstack os))).
    exists (Z.of_nat
              (String.length (unlines ("Stacktrace:" :: lines ++ [EmptyString])))).
    rewrite (LogStacktrace_SUNOS_writes os eq_refl).
    fold lines. rewrite stored_fits by lia. cbn [snd String.append].
    destruct (sunos_frame_lines_ok os (numbered 0 (callstack os))) as [Hn Hp];
      [intros pc dli; discriminate |].
    rewrite (count_frame_lines_section lines Hn Hp).
    unfold lines, os. cbn [callstack Samples.recursion].
    now rewrite length_map, length_numbered, repeat_length.
Qed.

Lemma FillCrashLog_writes (p : Platform) (this : CrashLogUnix) (os : OS)
    (message s1 s2 s3 : string) :
  writes (LogOSVersion os) s1 ->
  writes (fun buffer last => LogError this os buffer last message) s2 ->
  writes (LogStacktrace p os) s3 ->
  writes (FillCrashLog p this os message) (s1 +:+ s2 +:+ s3).
Proof.
  intros H1 H2 H3.
  apply (writes_seq _ _ _ _ H1
           (writes_seq (fun buffer last => LogError this os buffer last message)
              _ _ _ H2 H3)).
Qed.

(** The stack-trace section in each build configuration. *)
Lemma LogStacktrace_writes_lines (p : Platform) (os : OS) :
  writes (LogStacktrace p os)
    (unlines ("Stacktrace:" :: stack_trace_lines p os ++ [EmptyString])).
Proof.
  destruct p; cbn [stack_trace_lines].
  - apply LogStacktrace_GLIBC_writes.
  - destruct (getcontext_ok os) eqn:E.
    + apply (LogStacktrace_SUNOS_writes os E).
    + apply (LogStacktrace_SUNOS_failure os E).
  - apply LogStacktrace_OTHER_writes.
Qed.

Lemma indented_frame_line (x : string) :
  String.prefix " [" x = true -> String.prefix " " x = true.
Proof.
  destruct x as [|c x]; [discriminate |].
  rewrite !prefix_cons. destruct (ascii_dec " " c); [| discriminate].
  intros _. destruct x; reflexivity.
Qed.

(** With single-line texts, the lines of a stack-trace section are lines
    indeed, and each one begins with a space. *)
Lemma stack_trace_lines_indented (p : Platform) (os : OS) :
  (forall a, no_newline (symbol_of os a) = true) ->
  (forall pc dli, dladdr os pc = Some dli ->
     no_newline (fmt_s os (dli_fname dli)) = true /\
     no_newline (fmt_s os (dli_sname dli)) = true) ->
  Forall (fun l => no_newline l = true) (stack_trace_lines p os) /\
  Forall (fun l => String.prefix " " l = true) (stack_trace_lines p os).
Proof.
  intros Hsym Hnames.
  destruct p; cbn [stack_trace_lines].
  - destruct (glibc_frame_lines_ok
                (numbered 0 (map (symbol_of os) (firstn 64 (callstack os)))))
      as [Hn Hp].
    { apply (numbered_snd (fun s => no_newline s = true)).
      apply Forall_map, Forall_forall. intros a _. apply Hsym. }
    split; [exact Hn |].
    eapply Forall_impl; [exact Hp |]. apply indented_frame_line.
  - destruct (getcontext_ok os).
    + destruct (sunos_frame_lines_ok os (numbered 0 (callstack os)) Hnames)
        as [Hn Hp].
      split; [exact Hn |].
      eapply Forall_impl; [exact Hp |]. apply indented_frame_line.
    + split; repeat constructor.
  - split; repeat constructor.
Qed.

Lemma no_newline_indent (x : string) :
  no_newline x = true -> no_newline (indent x) = true.
Proof. intros H. unfold indent. now rewrite no_newline_append, H. Qed.

(** C4, as the code has it.  The OS-version section is the header
    ["Operating system:"] and its four fields indented by one space, or the
    single line ["Could not get OS version: ..."] when [uname()] fails; it
    ends with its last line, with no blank line after it.  The fault-reason
    section is the header ["Crash reason:"], its two fields indented by one
    space and a blank line.  The stack-trace section is the header
    ["Stacktrace:"], its lines and a blank line; when the texts supplied to
    the report hold no line feed, every entry below is one line of the report
    and every line of the stack-trace section begins with a space.  A
    full-capture report is these three sections in the order of the design
    document, cut where the buffer ends. *)
Theorem FillCrashLog_layout (p : Platform) (this : CrashLogUnix) (os : OS)
    (message : string) (buffer last : Z) (m : string) :
  let os_section :=
    match uname os with
    | Some name =>
        "Operating system:" ::
        map indent ["Name:     " +:+ sysname name;
                    "Release:  " +:+ release name;
                    "Version:  " +:+ version name;
                    "Machine:  " +:+ machine name]
    | None => ["Could not get OS version: " +:+ strerror os (errno os)]
    end in
  let reason_section :=
    "Crash reason:" ::
    map indent ["Signal:  " +:+ strsignal os (signum this) +:+
                  " (" +:+ fmt_d (signum this) +:+ ")";
                "Message: " +:+ message] ++ [EmptyString] in
  let trace_section :=
    "Stacktrace:" :: stack_trace_lines p os ++ [EmptyString] in
  LogOSVersion os buffer last m = stored buffer last m (unlines os_section) /\
  LogError this os buffer last message m =
    stored buffer last m (unlines reason_section) /\
  LogStacktrace p os buffer last m =
    stored buffer last m (unlines trace_section) /\
  FillCrashLog p this os message buffer last m =
    stored buffer last m
      (unlines (os_section ++ reason_section ++ trace_section)) /\
  (single_line_texts this os message ->
   Forall (fun l => no_newline l = true)
     (os_section ++ reason_section ++ trace_section) /\
   Forall (fun l => String.prefix " " l = true) (stack_trace_lines p os)).
Proof.
  intros os_section reason_section trace_section.
  assert (H1 : writes (LogOSVersion os) (unlines os_section)).
  { unfold os_section. destruct (uname os) as [name|] eqn:E.
    - apply (LogOSVersion_success os name E).
    - apply (LogOSVersion_failure os E). }
  assert (H2 : writes (fun buffer last => LogError this os buffer last message)
                 (unlines reason_section))
    by apply LogError_writes.
  assert (H3 : writes (LogStacktrace p os) (unlines trace_section))
    by apply LogStacktrace_writes_lines.
  split; [apply H1 |]. split; [apply H2 |]. split; [apply H3 |].
  split.
  - rewrite !unlines_app. apply (FillCrashLog_writes p this os message _ _ _ H1 H2 H3).
  - intros (Hos & Hsig & Hmsg & Hsym & Hnames).
    destruct (stack_trace_lines_indented p os Hsym Hnames) as [Hn Hp].
    split; [| exact Hp].
    apply Forall_app. split; [| apply Forall_app; split].
    + unfold os_section. destruct (uname os) as [name|].
      * destruct Hos as (Ha & Hb & Hc & Hd).
        repeat constructor; apply no_newline_indent;
          rewrite no_newline_append; cbn [no_newline]; assumption.
      * repeat constructor. now rewrite no_newline_append.
    + unfold reason_section. cbn [map app].
      repeat constructor; apply no_newline_indent.
      * now rewrite !no_newline_append, Hsig, no_newline_fmt_d.
      * now rewrite no_newline_append.
    + unfold trace_section. constructor; [reflexivity |].
      apply Forall_app. split; [exact Hn |]. repeat constructor.
Qed.

Lemma FillCrashLog_layout_on_linux :
  Forall (fun l => no_newline l = true)
    (["Operating system:"; " Name:     Linux"; " Release:  5.4.0";
      " Version:  #1 SMP"; " Machine:  x86_64";
      "Crash reason:"; " Signal:  Segmentation fault (11)"; " Message: ";
      EmptyString; "Stacktrace:"] ++
     stack_trace_lines SUNOS Samples.linux ++ [EmptyString]) /\
  Forall (fun l => String.prefix " " l = true)
    (stack_trace_lines SUNOS Samples.linux).
Proof.
  apply (FillCrashLog_layout SUNOS {| signum := SIGSEGV |} Samples.linux
           EmptyString 0 65536 EmptyString).
  split; [repeat split; reflexivity |].
  split; [reflexivity |]. split; [reflexivity |].
  split.
  - intros a. cbn [symbol_of Samples.linux].
    now rewrite !no_newline_append, no_newline_fmt_x.
  - intros pc dli. cbn [dladdr Samples.linux].
    destruct (pc =? 4198400); [| discriminate].
    intros [= <-]. split; reflexivity.
Defined.

(** C4, as stated, fails: no blank line follows the OS-version section.  On
    a Linux machine the section ends with its Machine line and the header
    ["Crash reason:"] is the next line; a blank line does precede
    ["Stacktrace:"].  When [uname()] fails, the section does not begin with
    its header either. *)
Lemma FillCrashLog_no_blank_line_after_OS_version :
  let os_section := snd (LogOSVersion Samples.linux 0 65536 EmptyString) in
  let report :=
    snd (FillCrashLog GLIBC {| signum := SIGSEGV |} Samples.linux EmptyString
           0 65536 EmptyString) in
  let report_without_uname :=
    snd (FillCrashLog GLIBC {| signum := SIGSEGV |} Samples.linux_without_uname
           EmptyString 0 65536 EmptyString) in
  ends_with (nl +:+ nl) os_section = false /\
  ends_with (" Machine:  x86_64" +:+ nl) os_section = true /\
  report =
    "Operating system:" +:+ nl +:+
    " Name:     Linux" +:+ nl +:+
    " Release:  5.4.0" +:+ nl +:+
    " Version:  #1 SMP" +:+ nl +:+
    " Machine:  x86_64" +:+ nl +:+
    "Crash reason:" +:+ nl +:+
    " Signal:  Segmentation fault (11)" +:+ nl +:+
    " Message: " +:+ nl +:+
    nl +:+
    "Stacktrace:" +:+ nl +:+
    " [00] ./openttd() [0x401000]" +:+ nl +:+
    " [01] ./openttd() [0x401100]" +:+ nl +:+
    " [02] ./openttd() [0x402000]" +:+ nl +:+
    nl /\
  blank_line_before "Crash reason:" report = false /\
  blank_line_before "Stacktrace:" report = true /\
  String.prefix "Operating system:" report_without_uname = false /\
  String.prefix ("Could not get OS version: Bad address" +:+ nl +:+ "Crash reason:")
    report_without_uname = true.
Proof. vm_compute. repeat split; reflexivity. Qed.

End Report.

(* ===================================================================== *)
(** * Further properties of the report operations *)
(* ===================================================================== *)

Section ReportOperations.

Lemma LogOSVersion_writes_some (os : OS) :
  exists s, writes (LogOSVersion os) s.
Proof.
  destruct (uname os) as [name|] eqn:E; eexists.
  - apply (LogOSVersion_success os name E).
  - apply (LogOSVersion_failure os E).
Qed.

Lemma LogStacktrace_writes_some (p : Platform) (os : OS) :
  exists s, writes (LogStacktrace p os) s.
Proof. eexists. apply LogStacktrace_writes_lines. Qed.

Lemma truncate_truncate (n n' : nat) (s : string) :
  (n <= n')%nat -> truncate n (truncate n' s) = truncate n s.
Proof.
  revert n n'; induction s as [|c s IH]; intros [|n] [|n'] H;
    try reflexivity; try lia.
  cbn. f_equal. apply IH. lia.
Qed.

Lemma writes_within_buffer (op : Z -> Z -> Buf Z) (s : string) :
  writes op s ->
  forall buffer last m, within_buffer buffer last m (op buffer last m).
Proof.
  intros H buffer last m. rewrite H. unfold within_buffer, stored.
  cbn [fst snd]. split; [lia |]. split; [unfold room; lia |].
  exists (truncate (room buffer last) s). split; [reflexivity |].
  rewrite length_truncate. lia.
Qed.

Lemma writes_no_room (op : Z -> Z -> Buf Z) (s : string) :
  writes op s ->
  forall buffer last m, last <= buffer -> op buffer last m = (buffer, m).
Proof.
  intros H buffer last m Hfull. rewrite H. unfold stored, room.
  replace (Z.to_nat (last - buffer)) with O by lia.
  cbn. rewrite append_empty_r. f_equal. lia.
Qed.

Lemma writes_cut_of (op : Z -> Z -> Buf Z) (s : string) :
  writes op s ->
  forall buffer last last' m, last <= last' -> cut_of op buffer last last' m.
Proof.
  intros H buffer last last' m Hle.
  exists (truncate (room buffer last') s).
  rewrite !H. unfold stored; cbn [snd]. split; [reflexivity |].
  rewrite truncate_truncate; [reflexivity |]. unfold room. lia.
Qed.

(** X1.  Each of the three report operations, in every build configuration,
    leaves the cursor inside the buffer: the cursor it returns is not before
    the one it was given, not after the end of the buffer, and is ahead by
    exactly the number of characters it stored. *)
Theorem report_operations_stay_within_buffer (p : Platform)
    (this : CrashLogUnix) (os : OS) (message : string) (buffer last : Z)
    (m : string) :
  within_buffer buffer last m (LogOSVersion os buffer last m) /\
  within_buffer buffer last m (LogError this os buffer last message m) /\
  within_buffer buffer last m (LogStacktrace p os buffer last m).
Proof.
  destruct (LogOSVersion_writes_some os) as [s1 H1].
  destruct (LogStacktrace_writes_some p os) as [s3 H3].
  split; [apply (writes_within_buffer _ _ H1) |].
  split; [| apply (writes_within_buffer _ _ H3)].
  apply (writes_within_buffer
           (fun buffer last => LogError this os buffer last message) _
           (LogError_writes this os message)).
Qed.

(** X2.  With the cursor at the end of the buffer, or beyond it, a report
    operation stores nothing and returns the cursor it was given. *)
Theorem report_operations_on_full_buffer (p : Platform) (this : CrashLogUnix)
    (os : OS) (message : string) (buffer last : Z) (m : string) :
  last <= buffer ->
  LogOSVersion os buffer last m = (buffer, m) /\
  LogError this os buffer last message m = (buffer, m) /\
  LogStacktrace p os buffer last m = (buffer, m).
Proof.
  intros Hfull.
  destruct (LogOSVersion_writes_some os) as [s1 H1].
  destruct (LogStacktrace_writes_some p os) as [s3 H3].
  split; [apply (writes_no_room _ _ H1 _ _ _ Hfull) |].
  split; [| apply (writes_no_room _ _ H3 _ _ _ Hfull)].
  apply (writes_no_room
           (fun buffer last => LogError this os buffer last message) _
           (LogError_writes this os message) _ _ _ Hfull).
Qed.

Lemma report_operations_on_full_buffer_sample :
  LogOSVersion Samples.linux 100 100 "abc" = (100, "abc") /\
  LogError {| signum := SIGSEGV |} Samples.linux 100 100 EmptyString "abc" =
    (100, "abc") /\
  LogStacktrace GLIBC Samples.linux 100 100 "abc" = (100, "abc").
Proof.
  apply (report_operations_on_full_buffer GLIBC {| signum := SIGSEGV |}
           Samples.linux EmptyString 100 100 "abc").
  lia.
Defined.

(** X3.  A shorter buffer only loses the end of a section: what a report
    operation stores in a buffer that ends at [last] is the beginning, as long
    as the room allows, of what it stores in a buffer that ends later. *)
Theorem report_operations_cut_at_the_end (p : Platform) (this : CrashLogUnix)
    (os : OS) (message : string) (buffer last last' : Z) (m : string) :
  last <= last' ->
  cut_of (LogOSVersion os) buffer last last' m /\
  cut_of (fun buffer last => LogError this os buffer last message)
    buffer last last' m /\
  cut_of (LogStacktrace p os) buffer last last' m.
Proof.
  intros Hle.
  destruct (LogOSVersion_writes_some os) as [s1 H1].
  destruct (LogStacktrace_writes_some p os) as [s3 H3].
  split; [apply (writes_cut_of _ _ H1 _ _ _ _ Hle) |].
  split; [| apply (writes_cut_of _ _ H3 _ _ _ _ Hle)].
  apply (writes_cut_of _ _ (LogError_writes this os message) _ _ _ _ Hle).
Qed.

Lemma report_operations_cut_at_the_end_sample :
  cut_of (LogOSVersion Samples.linux) 0 20 65536 EmptyString /\
  cut_of (fun buffer last =>
            LogError {| signum := SIGSEGV |} Samples.linux buffer last EmptyString)
    0 20 65536 EmptyString /\
  cut_of (LogStacktrace SUNOS Samples.linux) 0 20 65536 EmptyString.
Proof.
  apply (report_operations_cut_at_the_end SUNOS {| signum := SIGSEGV |}
           Samples.linux EmptyString 0 20 65536 EmptyString).
  lia.
Defined.

(** X14.  Report operations chain: running [LogStacktrace] at the cursor
    that [LogError] returned stores what storing the two sections as one text
    would store, the text being cut once, where the buffer ends. *)
Theorem LogError_then_LogStacktrace (p : Platform) (this : CrashLogUnix)
    (os : OS) (message : string) (buffer last : Z) (m : string) :
  exists reason trace,
    (forall b l m0, LogError this os b l message m0 = stored b l m0 reason) /\
    (forall b l m0, LogStacktrace p os b l m0 = stored b l m0 trace) /\
    LogStacktrace p os
      (fst (LogError this os buffer last message m)) last
      (snd (LogError this os buffer last message m)) =
    stored buffer last m (reason +:+ trace).
Proof.
  destruct (LogStacktrace_writes_some p os) as [trace Htrace].
  eexists. exists trace.
  split; [intros b l m0; apply (LogError_writes this os message) |].
  split; [exact Htrace |].
  rewrite Htrace, (LogError_writes this os message buffer last m).
  apply stored_stored.
Qed.

(** X15.  A build without stack-walking support says so in the report: its
    stack-trace section is the header, the line [" Not supported."] and a
    blank line, whatever the state of the machine. *)
Theorem LogStacktrace_OTHER_not_supported (os : OS) (buffer last : Z)
    (m : string) :
  LogStacktrace OTHER os buffer last m =
  stored buffer last m
    ("Stacktrace:" +:+ nl +:+ " Not supported." +:+ nl +:+ nl) /\
  (29 <= last - buffer ->
   LogStacktrace OTHER os buffer last m =
   (buffer + 29, m +:+ "Stacktrace:" +:+ nl +:+ " Not supported." +:+ nl +:+ nl)).
Proof.
  assert (H : LogStacktrace OTHER os buffer last m =
              stored buffer last m
                ("Stacktrace:" +:+ nl +:+ " Not supported." +:+ nl +:+ nl))
    by apply LogStacktrace_OTHER_writes.
  split; [exact H |].
  intros Hroom. rewrite H. apply stored_fits. cbn. lia.
Qed.

Lemma LogStacktrace_OTHER_not_supported_sample :
  LogStacktrace OTHER Samples.without_context 10 100 "abc" =
  (39, "abc" +:+ "Stacktrace:" +:+ nl +:+ " Not supported." +:+ nl +:+ nl).
Proof.
  destruct (LogStacktrace_OTHER_not_supported Samples.without_context 10 100 "abc")
    as [_ H].
  apply H. lia.
Defined.

End ReportOperations.

(* ===================================================================== *)
(** * Further properties of the stack-trace section *)
(* ===================================================================== *)

Section StackTraces.

Lemma nth_error_glibc_lines (os : OS) (i : nat) (a : Z) :
  nth_error (callstack os) i = Some a ->
  (i < 64)%nat ->
  nth_error
    (map glibc_frame_line
       (numbered 0 (map (symbol_of os) (firstn 64 (callstack os))))) i =
  Some (" [" +:+ fmt_02i (Z.of_nat i) +:+ "] " +:+ symbol_of os a).
Proof.
  intros Ha Hi.
  apply (nth_error_numbered glibc_frame_line 0 _ i (symbol_of os a)).
  apply map_nth_error. rewrite nth_error_firstn.
  destruct (Nat.ltb_spec i 64); [exact Ha | lia].
Qed.

(** X4.  The frame-unwinding variant numbers the frames from 0, innermost
    first: for every frame among the first 64 of the call stack, line [i]
    under the header is [" [NN] "] followed by the description that
    [backtrace_symbols] gives of the [i]-th return address. *)
Theorem LogStacktrace_GLIBC_lines_in_stack_order (os : OS) :
  exists lines,
    (forall buffer last m,
       LogStacktrace GLIBC os buffer last m =
       stored buffer last m (unlines ("Stacktrace:" :: lines ++ [EmptyString]))) /\
    length lines = Nat.min 64 (length (callstack os)) /\
    (forall i a,
       nth_error (callstack os) i = Some a ->
       (i < 64)%nat ->
       nth_error lines i =
       Some (" [" +:+ fmt_02i (Z.of_nat i) +:+ "] " +:+ symbol_of os a)).
Proof.
  exists (map glibc_frame_line
            (numbered 0 (map (symbol_of os) (firstn 64 (callstack os))))).
  split; [intros buffer last m; apply LogStacktrace_GLIBC_writes |].
  split; [now rewrite length_map, length_numbered, length_map, length_take |].
  apply nth_error_glibc_lines.
Qed.

(** X5.  Frames deeper than the 64th never reach the report of the
    frame-unwinding variant: two crashes whose call stacks agree on their
    first 64 return addresses get the same stack-trace section. *)
Theorem LogStacktrace_GLIBC_drops_deep_frames (os os' : OS)
    (buffer last : Z) (m : string) :
  (forall a, symbol_of os a = symbol_of os' a) ->
  firstn 64 (callstack os) = firstn 64 (callstack os') ->
  LogStacktrace GLIBC os buffer last m = LogStacktrace GLIBC os' buffer last m.
Proof.
  intros Hsym Hstack.
  rewrite !LogStacktrace_GLIBC_writes, Hstack.
  now rewrite (map_ext _ _ Hsym).
Qed.

Lemma LogStacktrace_GLIBC_drops_deep_frames_sample :
  LogStacktrace GLIBC
    (MoreSamples.with_stack (map Z.of_nat (seq 1 64) ++ [7; 8; 9])) 0 65536
    EmptyString =
  LogStacktrace GLIBC
    (MoreSamples.with_stack (map Z.of_nat (seq 1 64))) 0 65536 EmptyString.
Proof.
  apply (LogStacktrace_GLIBC_drops_deep_frames
           (MoreSamples.with_stack (map Z.of_nat (seq 1 64) ++ [7; 8; 9]))
           (MoreSamples.with_stack (map Z.of_nat (seq 1 64)))
           0 65536 EmptyString).
  - intros a. reflexivity.
  - vm_compute. reflexivity.
Defined.

(** X6.  In the context-walking variant, the line of a frame for which
    [dladdr()] succeeds and gives both a module name and a symbol name holds,
    after the frame number, the module name, the symbol name, the offset of
    the program counter from the symbol and the program counter, the last two
    in hexadecimal. *)
Theorem LogStacktrace_SUNOS_resolved_frames (os : OS) :
  getcontext_ok os = true ->
  exists lines,
    (forall buffer last m,
       LogStacktrace SUNOS os buffer last m =
       stored buffer last m (unlines ("Stacktrace:" :: lines ++ [EmptyString]))) /\
    length lines = length (callstack os) /\
    (forall i pc dli fname sname,
       nth_error (callstack os) i = Some pc ->
       dladdr os pc = Some dli ->
       dli_fname dli = Some fname ->
       dli_sname dli = Some sname ->
       nth_error lines i =
       Some (" [" +:+ fmt_02i (Z.of_nat i) +:+ "] " +:+ fname +:+
             "(" +:+ sname +:+ "+0x" +:+ fmt_x (pc - dli_saddr dli) +:+
             ") [0x" +:+ fmt_x pc +:+ "]")).
Proof.
  intros E.
  exists (map (sunos_frame_line os) (numbered 0 (callstack os))).
  split; [intros buffer last m; apply (LogStacktrace_SUNOS_writes os E) |].
  split; [now rewrite length_map, length_numbered |].
  intros i pc dli fname sname Hi Hpc Hf Hs.
  rewrite (nth_error_numbered _ 0 _ i pc Hi).
  unfold sunos_frame_line. now rewrite Hpc, Hf, Hs.
Qed.

Lemma LogStacktrace_SUNOS_resolved_frames_sample :
  exists lines,
    (forall buffer last m,
       LogStacktrace SUNOS Samples.linux buffer last m =
       stored buffer last m (unlines ("Stacktrace:" :: lines ++ [EmptyString]))) /\
    length lines = 3%nat /\
    nth_error lines 0 = Some " [00] openttd(main+0x100) [0x401000]".
Proof.
  destruct (LogStacktrace_SUNOS_resolved_frames Samples.linux eq_refl)
    as (lines & Hw & Hlen & Hl).
  exists lines. split; [exact Hw |]. split; [exact Hlen |].
  apply (Hl 0%nat 4198400
           {| dli_fname := Some "openttd"; dli_sname := Some "main";
              dli_saddr := 4198144 |} "openttd" "main");
    reflexivity.
Defined.

(** X7.  The walker never stops the walk: it returns 0 for every frame, so
    that after [walkcontext] the level counter has grown by the number of
    frames of the context; the end of the buffer it was given is unchanged
    and its cursor is still inside the buffer. *)
Theorem walkcontext_visits_every_frame (os : OS) (uc : ucontext_t)
    (wp : StackWalkerParams) (m : string) :
  (forall pc sig wp0 m0, fst (fst (SunOSStackWalker os pc sig wp0 m0)) = 0) /\
  counter (fst (walkcontext uc (SunOSStackWalker os) wp m)) =
    counter wp + Z.of_nat (length uc) /\
  wp_last (fst (walkcontext uc (SunOSStackWalker os) wp m)) = wp_last wp /\
  bufptr wp <= bufptr (fst (walkcontext uc (SunOSStackWalker os) wp m)) /\
  (bufptr wp <= wp_last wp ->
   bufptr (fst (walkcontext uc (SunOSStackWalker os) wp m)) <= wp_last wp).
Proof.
  split.
  { intros pc sig wp0 m0. now rewrite SunOSStackWalker_stored. }
  rewrite walkcontext_stored. cbv zeta. cbn [fst counter wp_last bufptr].
  split; [reflexivity |]. split; [reflexivity |].
  apply stored_cursor.
Qed.

(** X8.  With no frame to show, the frame-unwinding and the context-walking
    variants still write the section: its header and its closing blank
    line. *)
Theorem LogStacktrace_of_empty_stack (os : OS) (buffer last : Z) (m : string) :
  callstack os = [] ->
  getcontext_ok os = true ->
  LogStacktrace GLIBC os buffer last m =
    stored buffer last m ("Stacktrace:" +:+ nl +:+ nl) /\
  LogStacktrace SUNOS os buffer last m =
    stored buffer last m ("Stacktrace:" +:+ nl +:+ nl).
Proof.
  intros Hempty Hctx.
  rewrite LogStacktrace_GLIBC_writes, (LogStacktrace_SUNOS_writes os Hctx).
  rewrite Hempty. split; reflexivity.
Qed.

Lemma LogStacktrace_of_empty_stack_sample :
  LogStacktrace GLIBC MoreSamples.no_frames 0 65536 EmptyString =
    (13, "Stacktrace:" +:+ nl +:+ nl) /\
  LogStacktrace SUNOS MoreSamples.no_frames 0 65536 EmptyString =
    (13, "Stacktrace:" +:+ nl +:+ nl).
Proof.
  apply (LogStacktrace_of_empty_stack MoreSamples.no_frames 0 65536 EmptyString);
    reflexivity.
Defined.

Lemma fmt_02i_two_characters (i : nat) :
  (i < 64)%nat -> String.length (fmt_02i (Z.of_nat i)) = 2%nat.
Proof.
  intros Hi.
  do 64 (destruct i as [|i]; [vm_compute; reflexivity |]).
  lia.
Qed.

(** X9.  In the frame-unwinding variant every frame number is written with
    exactly two characters: the array of 64 addresses keeps the numbers below
    100, and [%02i] pads those below 10.  Line [i] under the header, for each
    of the [min(64, depth)] frames, is [" ["], the two characters of the
    number, ["] "] and the description of the frame. *)
Theorem LogStacktrace_GLIBC_two_digit_numbers (os : OS) :
  exists lines,
    (forall buffer last m,
       LogStacktrace GLIBC os buffer last m =
       stored buffer last m (unlines ("Stacktrace:" :: lines ++ [EmptyString]))) /\
    length lines = Nat.min 64 (length (callstack os)) /\
    (forall i a,
       nth_error (callstack os) i = Some a ->
       (i < 64)%nat ->
       exists number,
         number = fmt_02i (Z.of_nat i) /\
         String.length number = 2%nat /\
         no_newline number = true /\
         nth_error lines i =
         Some (" [" +:+ number +:+ "] " +:+ symbol_of os a)).
Proof.
  exists (map glibc_frame_line
            (numbered 0 (map (symbol_of os) (firstn 64 (callstack os))))).
  split; [intros buffer last m; apply LogStacktrace_GLIBC_writes |].
  split; [now rewrite length_map, length_numbered, length_map, length_take |].
  intros i a Ha Hi.
  exists (fmt_02i (Z.of_nat i)).
  split; [reflexivity |].
  split; [now apply fmt_02i_two_characters |].
  split; [apply no_newline_fmt_02i |].
  now apply nth_error_glibc_lines.
Qed.

(** X10.  The context-walking variant prints a program counter through a cast
    to a 32-bit [uint]: two unresolved frames whose program counters differ by
    a multiple of [2^32] get the same line. *)
Theorem SunOSStackWalker_shows_low_32_bits (os : OS) (pc k sig : Z)
    (wp : StackWalkerParams) (m : string) :
  dladdr os pc = None ->
  dladdr os (pc + k * 2 ^ 32) = None ->
  SunOSStackWalker os (pc + k * 2 ^ 32) sig wp m =
  SunOSStackWalker os pc sig wp m.
Proof.
  intros H1 H2. unfold SunOSStackWalker. rewrite H1, H2.
  unfold fmt_x. now rewrite Z.mod_add by lia.
Qed.

Lemma SunOSStackWalker_shows_low_32_bits_sample :
  SunOSStackWalker Samples.deep_recursion (4096 + 1 * 2 ^ 32) 0
    {| bufptr := 0; wp_last := 65536; counter := 0 |} EmptyString =
  SunOSStackWalker Samples.deep_recursion 4096 0
    {| bufptr := 0; wp_last := 65536; counter := 0 |} EmptyString.
Proof.
  apply (SunOSStackWalker_shows_low_32_bits Samples.deep_recursion 4096 1 0);
    reflexivity.
Defined.

(** X16.  When [getcontext()] fails, the context-walking variant writes its
    header, the line [" getcontext() failed"] and a blank line, and returns
    without walking: the section holds no frame line, whatever the call stack
    and whatever the context variable was left holding. *)
Theorem LogStacktrace_SUNOS_without_context (os : OS) (buffer last : Z)
    (m : string) :
  getcontext_ok os = false ->
  LogStacktrace SUNOS os buffer last m =
    stored buffer last m
      ("Stacktrace:" +:+ nl +:+ " getcontext() failed" +:+ nl +:+ nl) /\
  count_frame_lines (snd (LogStacktrace SUNOS os buffer last EmptyString)) = O.
Proof.
  intros E.
  assert (H : forall m0, LogStacktrace SUNOS os buffer last m0 =
                         stored buffer last m0
                           ("Stacktrace:" +:+ nl +:+ " getcontext() failed" +:+
                            nl +:+ nl))
    by (intros m0; apply (LogStacktrace_SUNOS_failure os E)).
  split; [apply H |].
  rewrite H. unfold stored; cbn [snd String.append].
  apply Nat.le_0_r.
  etransitivity; [apply count_frame_lines_truncate |]. now vm_compute.
Qed.

Lemma LogStacktrace_SUNOS_without_context_sample :
  stale_context Samples.without_context = [4198400; 4198656] /\
  LogStacktrace SUNOS Samples.without_context 0 65536 EmptyString =
    (34, "Stacktrace:" +:+ nl +:+ " getcontext() failed" +:+ nl +:+ nl) /\
  count_frame_lines
    (snd (LogStacktrace SUNOS Samples.without_context 0 65536 EmptyString)) = O.
Proof.
  split; [reflexivity |].
  apply (LogStacktrace_SUNOS_without_context Samples.without_context 0 65536
           EmptyString).
  reflexivity.
Defined.

(** X17.  In the context-walking variant a frame for which [dladdr()]
    returns 0 gets the line made of its number and its raw address, and the
    walk goes on with the next stack level. *)
Theorem LogStacktrace_SUNOS_raw_address_lines (os : OS) :
  getcontext_ok os = true ->
  exists lines,
    (forall buffer last m,
       LogStacktrace SUNOS os buffer last m =
       stored buffer last m (unlines ("Stacktrace:" :: lines ++ [EmptyString]))) /\
    length lines = length (callstack os) /\
    (forall i pc,
       nth_error (callstack os) i = Some pc ->
       dladdr os pc = None ->
       nth_error lines i =
         Some (" [" +:+ fmt_02i (Z.of_nat i) +:+ "] [0x" +:+ fmt_x pc +:+ "]") /\
       forall buffer last m,
         SunOSStackWalker os pc 0
           {| bufptr := buffer; wp_last := last; counter := Z.of_nat i |} m =
         ((0, {| bufptr :=
                   fst (stored buffer last m
                          (" [" +:+ fmt_02i (Z.of_nat i) +:+ "] [0x" +:+
                           fmt_x pc +:+ "]" +:+ nl));
                 wp_last := last;
                 counter := Z.of_nat i + 1 |}),
          snd (stored buffer last m
                 (" [" +:+ fmt_02i (Z.of_nat i) +:+ "] [0x" +:+
                  fmt_x pc +:+ "]" +:+ nl)))).
Proof.
  intros E.
  exists (map (sunos_frame_line os) (numbered 0 (callstack os))).
  split; [intros buffer last m; apply (LogStacktrace_SUNOS_writes os E) |].
  split; [now rewrite length_map, length_numbered |].
  intros i pc Hi Hpc. split.
  - rewrite (nth_error_numbered _ 0 _ i pc Hi).
    unfold sunos_frame_line. now rewrite Hpc.
  - intros buffer last m.
    rewrite SunOSStackWalker_stored. cbv zeta.
    cbn [bufptr wp_last counter]. unfold sunos_frame_line. rewrite Hpc.
    now rewrite !append_assoc.
Qed.

Lemma LogStacktrace_SUNOS_raw_address_lines_sample :
  exists lines,
    (forall buffer last m,
       LogStacktrace SUNOS Samples.linux buffer last m =
       stored buffer last m (unlines ("Stacktrace:" :: lines ++ [EmptyString]))) /\
    length lines = 3%nat /\
    nth_error lines 1 = Some " [01] [0x401100]".
Proof.
  destruct (LogStacktrace_SUNOS_raw_address_lines Samples.linux eq_refl)
    as (lines & Hw & Hlen & Hl).
  exists lines. split; [exact Hw |]. split; [exact Hlen |].
  apply (Hl 1%nat 4198656); reflexivity.
Defined.

End StackTraces.

(* ===================================================================== *)
(** * Further properties of the handler and of its installation *)
(* ===================================================================== *)

Section Installation.

Local Open Scope proc_scope.

(** X11.  When neither skip-predicate answers true, [HandleCrash] makes no
    call to [printf] of its own: after the disarming loop it asks both
    predicates, the emergency check first, constructs the logger with the
    signal number it received, has it make the crash log, calls
    [AfterCrashLogCleanup] and ends with [abort()].  Between the constructor
    and the cleanup, the calls are those [MakeCrashLog] makes. *)
Theorem HandleCrash_full_capture (p : Platform) (signum : Z) (w : World) :
  emergency_savegame w = false ->
  missing_newgrfs w = false ->
  exists w',
    HandleCrash p signum w = Terminated w' /\
    history w' =
      (history w ++ signal_calls _signals_to_handle SIG_DFL ++
       [GamelogTestEmergency_call;
        SaveloadCrashWithMissingNewGRFs_call;
        CrashLogUnix_constructed signum] ++
       history
         (final_world
            (MakeCrashLog p {| signum := signum |}
               {| dispositions := dispositions w;
                  emergency_savegame := emergency_savegame w;
                  missing_newgrfs := missing_newgrfs w;
                  system := system w;
                  crash_message := crash_message w;
                  crashlog_capacity := crashlog_capacity w;
                  presentation := presentation w;
                  history := [] |})) ++
       [AfterCrashLogCleanup_call;
        abort_call])%list.
Proof.
  intros He Hm.
  set (w1 := rebound _signals_to_handle SIG_DFL w).
  assert (Hh : HandleCrash p signum w = HandleCrash_report p signum w1).
  { unfold HandleCrash, pbind, HandleCrash_disarm. now rewrite for_each_signal. }
  destruct (HandleCrash_report_run p signum w1) as (rest & Hrun & _ & Hcalls).
  destruct (rebound_fields _signals_to_handle SIG_DFL w)
    as (He1 & Hm1 & Hs1 & Hc1 & Hk1 & Hp1).
  fold w1 in He1, Hm1, Hs1, Hc1, Hk1, Hp1.
  unfold calls_after_emergency_check in Hcalls.
  rewrite He1, Hm1, Hs1, Hc1, Hk1, Hp1, He, Hm in Hcalls. subst rest.
  eexists. split; [rewrite Hh; exact Hrun |].
  cbn [history]. unfold w1. rewrite rebound_history.
  unfold MakeCrashLog. cbn [final_world]. rewrite record_calls_fields.
  cbn [history system crash_message crashlog_capacity presentation app].
  rewrite <- !app_assoc. reflexivity.
Qed.

Lemma HandleCrash_full_capture_sample :
  exists w',
    HandleCrash OTHER SIGFPE (Samples.game false false Samples.linux) =
      Terminated w' /\
    history w' =
      [signal_call SIGSEGV SIG_DFL; signal_call SIGABRT SIG_DFL;
       signal_call SIGFPE SIG_DFL; signal_call SIGBUS SIG_DFL;
       signal_call SIGILL SIG_DFL;
       GamelogTestEmergency_call;
       SaveloadCrashWithMissingNewGRFs_call;
       CrashLogUnix_constructed SIGFPE;
       LogOSVersion_call; LogError_call; LogStacktrace_call;
       crashlog_finalized
         (snd (FillCrashLog OTHER {| signum := SIGFPE |} Samples.linux
                 EmptyString 0 65536 EmptyString));
       printf_call ("Crash log written to crash.log" +:+ nl);
       AfterCrashLogCleanup_call;
       abort_call].
Proof.
  apply (HandleCrash_full_capture OTHER SIGFPE
           (Samples.game false false Samples.linux));
    reflexivity.
Defined.

(** X12.  In a process that had the watched signals at their default
    disposition, installing the crash logger makes the delivery of each of
    them run [HandleCrash], and the disarming loop of the handler then gives
    every signal, watched or not, the disposition it had before the
    installation. *)
Theorem disarm_undoes_InitialiseCrashLog (w : World) :
  (forall sig, In sig _signals_to_handle -> disposition w sig = SIG_DFL) ->
  exists w1 w2,
    InitialiseCrashLog w = Returns tt w1 /\
    HandleCrash_disarm w1 = Returns tt w2 /\
    (forall sig, In sig _signals_to_handle -> deliver w1 sig = runs_HandleCrash) /\
    (forall sig, disposition w2 sig = disposition w sig).
Proof.
  intros Hdefault.
  exists (rebound _signals_to_handle SIG_HandleCrash w),
    (rebound _signals_to_handle SIG_DFL
       (rebound _signals_to_handle SIG_HandleCrash w)).
  split; [apply for_each_signal |].
  split; [apply for_each_signal |].
  split.
  - intros sig Hsig. unfold deliver.
    now rewrite rebound_disposition_in.
  - intros sig.
    destruct (in_dec Z.eq_dec sig _signals_to_handle) as [Hin | Hout].
    + rewrite rebound_disposition_in by exact Hin. symmetry. now apply Hdefault.
    + now rewrite !rebound_disposition_out by exact Hout.
Qed.

Lemma disarm_undoes_InitialiseCrashLog_sample :
  exists w1 w2,
    InitialiseCrashLog MoreSamples.server = Returns tt w1 /\
    HandleCrash_disarm w1 = Returns tt w2 /\
    (forall sig, In sig _signals_to_handle -> deliver w1 sig = runs_HandleCrash) /\
    (forall sig, disposition w2 sig = disposition MoreSamples.server sig).
Proof.
  apply (disarm_undoes_InitialiseCrashLog MoreSamples.server).
  intros sig Hsig. cbn in Hsig.
  destruct Hsig as [<- | [<- | [<- | [<- | [<- | []]]]]]; reflexivity.
Defined.

(** X13.  [InitialiseCrashLog] binds SIGSEGV, SIGABRT, SIGFPE, SIGBUS and
    SIGILL to [HandleCrash], whatever they were bound to, and touches no other
    signal: a handler the process has for another signal stays in place. *)
Theorem InitialiseCrashLog_frame (w : World) :
  exists w1,
    InitialiseCrashLog w = Returns tt w1 /\
    history w1 =
      (history w ++
       [signal_call SIGSEGV SIG_HandleCrash; signal_call SIGABRT SIG_HandleCrash;
        signal_call SIGFPE SIG_HandleCrash; signal_call SIGBUS SIG_HandleCrash;
        signal_call SIGILL SIG_HandleCrash])%list /\
    (forall sig, In sig [SIGSEGV; SIGABRT; SIGFPE; SIGBUS; SIGILL] ->
       deliver w1 sig = runs_HandleCrash) /\
    (forall sig, ~ In sig [SIGSEGV; SIGABRT; SIGFPE; SIGBUS; SIGILL] ->
       dispositions w1 !! sig = dispositions w !! sig /\
       deliver w1 sig = deliver w sig).
Proof.
  exists (rebound _signals_to_handle SIG_HandleCrash w).
  split; [apply for_each_signal |].
  split; [apply rebound_history |].
  split; intros sig Hsig.
  - unfold deliver. now rewrite rebound_disposition_in.
  - split.
    + rewrite rebound_lookup, decide_False; [reflexivity |].
      now rewrite list_elem_of_In.
    + unfold deliver. now rewrite rebound_disposition_out.
Qed.

End Installation.
